(** * tach command-line dispatcher ([tach/cli.py])

    A shallow embedding of the dispatcher: argument handling, error
    formatting, the [check] command with its exact mode, the confirmation
    prompt of [clean], and the process exit codes.  Collaborating modules
    ([tach.check], [tach.sync], [tach.parsing], [tach.filesystem], ...)
    are reached through the interface [Collaborators]. *)

From Stdlib Require Import String Ascii List ZArith Bool Lia.
From Stdlib Require Import Permutation Sorted DecimalString.
Import ListNotations.
Local Open Scope string_scope.

Set Implicit Arguments.

(** ** Python's built-in [str] operations

    A [str] is modelled by the byte string of its UTF-8 encoding.  The
    order of well-formed UTF-8 byte strings is the order of code-point
    sequences, so [String.ltb] is Python's [<] on [str]. *)

Module PyStr.

Definition chr (n : nat) : string := String (ascii_of_nat n) "".

Definition ESC : string := chr 27.
Definition TAB : string := chr 9.
Definition NEWLINE : string := chr 10.
Definition BACKSLASH : string := chr 92.
Definition DQUOTE : string := chr 34.
Definition SQUOTE : string := "'".

(** [sub in s] *)
Fixpoint str_in (sub s : string) : bool :=
  if String.prefix sub s then true
  else match s with
       | EmptyString => false
       | String _ s' => str_in sub s'
       end.

(** The propositional reading of [sub in s]. *)
Definition contains (s sub : string) : Prop :=
  exists pre post, s = pre ++ sub ++ post.

(** [bool(s)]: the empty string is falsy. *)
Definition truthy (s : string) : bool :=
  match s with EmptyString => false | _ => true end.

(** [c.lower()] on an ASCII letter; every other byte is kept.  The only
    code points outside ASCII whose lower case has an ASCII letter in it
    are U+212A (to k) and U+0130 (to i followed by U+0307); none of the
    words this file compares against ("y", "yes", "jetbrains", "vscode")
    is reached through them, so the membership tests below decide as
    Python does. *)
Definition lower_ascii (c : ascii) : ascii :=
  let n := nat_of_ascii c in
  if (65 <=? n)%nat && (n <=? 90)%nat then ascii_of_nat (n + 32) else c.

Fixpoint lower (s : string) : string :=
  match s with
  | EmptyString => EmptyString
  | String c s' => String (lower_ascii c) (lower s')
  end.

(** [s.split(sep)] for a one-character separator: never the empty list. *)
Fixpoint split (sep : ascii) (s : string) : list string :=
  match s with
  | EmptyString => [EmptyString]
  | String c s' =>
      if Ascii.eqb c sep then EmptyString :: split sep s'
      else match split sep s' with
           | [] => [String c EmptyString]
           | w :: ws => String c w :: ws
           end
  end.

(** [sep.join(l)] *)
Fixpoint join (sep : string) (l : list string) : string :=
  match l with
  | [] => EmptyString
  | [x] => x
  | x :: l' => x ++ sep ++ join sep l'
  end.

(** [str(n)] for an [int]. *)
Definition str_int (n : Z) : string := NilZero.string_of_int (Z.to_int n).

Definition hex_digit (n : nat) : string :=
  String.substring n 1 "0123456789abcdef".

(** [width] lowercase hexadecimal digits of [n]. *)
Fixpoint hex (width : nat) (n : N) : string :=
  match width with
  | O => EmptyString
  | S w => hex w (n / 16)%N ++ hex_digit (N.to_nat (n mod 16)%N)
  end.

Definition continuation (b : N) : bool := ((128 <=? b) && (b <=? 191))%N.

(** The code point at the head of a UTF-8 byte string and the number of
    bytes it takes; [None] when the first byte starts no well-formed
    sequence (an overlong form, a surrogate and a code point above
    U+10FFFF are not well formed). *)
Definition decode (s : string) : option (N * nat) :=
  match s with
  | EmptyString => None
  | String c0 r0 =>
      let b0 := N_of_ascii c0 in
      if (b0 <? 128)%N then Some (b0, 1%nat)
      else
        match r0 with
        | EmptyString => None
        | String c1 r1 =>
            let b1 := N_of_ascii c1 in
            if ((194 <=? b0) && (b0 <=? 223))%N then
              if continuation b1
              then Some (((b0 - 192) * 64 + (b1 - 128))%N, 2%nat)
              else None
            else
              match r1 with
              | EmptyString => None
              | String c2 r2 =>
                  let b2 := N_of_ascii c2 in
                  if ((224 <=? b0) && (b0 <=? 239))%N then
                    let cp := ((b0 - 224) * 4096 + (b1 - 128) * 64 + (b2 - 128))%N in
                    if continuation b1 && continuation b2
                       && (2048 <=? cp)%N
                       && negb ((55296 <=? cp) && (cp <=? 57343))%N
                    then Some (cp, 3%nat)
                    else None
                  else
                    match r2 with
                    | EmptyString => None
                    | String c3 _ =>
                        let b3 := N_of_ascii c3 in
                        let cp := ((b0 - 240) * 262144 + (b1 - 128) * 4096
                                   + (b2 - 128) * 64 + (b3 - 128))%N in
                        if ((240 <=? b0) && (b0 <=? 244))%N
                           && continuation b1 && continuation b2 && continuation b3
                           && ((65536 <=? cp) && (cp <=? 1114111))%N
                        then Some (cp, 4%nat)
                        else None
                    end
              end
        end
  end.

(** [repr] of an ASCII character inside quotes [q]. *)
Definition repr_char (q : ascii) (c : ascii) : string :=
  let n := nat_of_ascii c in
  if Ascii.eqb c q then BACKSLASH ++ String c ""
  else if (n =? 92)%nat then BACKSLASH ++ BACKSLASH
  else if (n =? 9)%nat then BACKSLASH ++ "t"
  else if (n =? 10)%nat then BACKSLASH ++ "n"
  else if (n =? 13)%nat then BACKSLASH ++ "r"
  else if (n <? 32)%nat || (n =? 127)%nat
       then BACKSLASH ++ "x" ++ hex_digit (n / 16) ++ hex_digit (n mod 16)
  else String c "".

(** The escape of a character that is not printable. *)
Definition escape (cp : N) : string :=
  if (cp <? 256)%N then BACKSLASH ++ "x" ++ hex 2 cp
  else if (cp <? 65536)%N then BACKSLASH ++ "u" ++ hex 4 cp
  else BACKSLASH ++ "U" ++ hex 8 cp.

Section Repr.

(** [str.isprintable] of the character of a code point above U+00FF, as
    the Unicode database of the interpreter has it. *)
Variable isprintable : N -> bool.

(** The printable characters outside ASCII.  From U+0080 to U+00FF all
    are printable but the C1 controls, the no-break space U+00A0 and the
    soft hyphen U+00AD. *)
Definition printable (cp : N) : bool :=
  if (cp <? 256)%N then (160 <? cp)%N && negb (cp =? 173)%N
  else isprintable cp.

(** The body of [repr(s)] inside quotes [q], character by character: an
    ASCII character by [repr_char]; a printable character outside ASCII
    as it is, another one as its escape.  A byte that belongs to no
    well-formed sequence stands for the lone surrogate (U+DC80 to
    U+DCFF) by which Python holds such a byte of a file name or of a
    command-line argument, and is escaped as one.  [skip] is the number
    of bytes of the current character still to pass. *)
Fixpoint repr_body (q : ascii) (skip : nat) (s : string) : string :=
  match s with
  | EmptyString => EmptyString
  | String c s' =>
      match skip with
      | S k => repr_body q k s'
      | O =>
          match decode s with
          | Some (cp, len) =>
              (if (cp <? 128)%N then repr_char q c
               else if printable cp then String.substring 0 len s
               else escape cp) ++ repr_body q (len - 1) s'
          | None => escape (56320 + N_of_ascii c) ++ repr_body q 0 s'
          end
      end
  end.

(** [repr(s)]: single quotes, unless [s] has a single quote and no
    double quote. *)
Definition repr (s : string) : string :=
  if str_in SQUOTE s && negb (str_in DQUOTE s)
  then DQUOTE ++ repr_body (ascii_of_nat 34) 0 s ++ DQUOTE
  else SQUOTE ++ repr_body (ascii_of_nat 39) 0 s ++ SQUOTE.

(** [str(l)] for a list of [str]. *)
Definition str_list (l : list string) : string :=
  "[" ++ join ", " (map repr l) ++ "]".

End Repr.

(** Exceptions: the class name and [str(e)]. *)
Record PyExn := mkExn { exn_class : string; exn_str : string }.

(** How a call ends: it returns, raises an [Exception], or raises
    [SystemExit] ([sys.exit(code)]), which [except Exception] lets
    through. *)
Inductive Outcome (A : Type) : Type :=
| Ret (a : A)
| Raise (e : PyExn)
| Exit (code : Z).
Arguments Ret {A} a.
Arguments Raise {A} e.
Arguments Exit {A} code.

Definition single_brace (b : string) : PyExn :=
  mkExn "ValueError" ("Single '" ++ b ++ "' encountered in format string").

(** A pure computation that returns or raises. *)
Definition rmap {A B} (f : A -> B) (r : PyExn + A) : PyExn + B :=
  match r with
  | inl e => inl e
  | inr a => inr (f a)
  end.

(** [template.format(message=m)].  Literal text is copied, a doubled
    brace gives one brace, the field [{message}] gives [m], and a brace
    on its own raises [ValueError].  A replacement field of any other
    shape (another name, an index, a conversion, a format
    specification) is handed, with the rest of the template, to
    [other_field], Python's own treatment of such fields.  [skip] is the
    number of characters already consumed ahead of the scan. *)
Fixpoint format_from (other_field : string -> string -> PyExn + string)
    (m : string) (skip : nat) (template : string) : PyExn + string :=
  match template with
  | EmptyString => inr EmptyString
  | String c rest =>
      match skip with
      | S k => format_from other_field m k rest
      | O =>
          if Ascii.eqb c "{" then
            match rest with
            | EmptyString => inl (single_brace "{")
            | String c' _ =>
                if Ascii.eqb c' "{"
                then rmap (String "{") (format_from other_field m 1 rest)
                else if String.prefix "message}" rest
                then rmap (append m) (format_from other_field m 8 rest)
                else other_field template m
            end
          else if Ascii.eqb c "}" then
            match rest with
            | EmptyString => inl (single_brace "}")
            | String c' _ =>
                if Ascii.eqb c' "}"
                then rmap (String "}") (format_from other_field m 1 rest)
                else inl (single_brace "}")
            end
          else rmap (String c) (format_from other_field m 0 rest)
      end
  end.

Definition format_message other_field (template m : string) : PyExn + string :=
  format_from other_field m 0 template.

End PyStr.
Import PyStr.

(** ** Python's [sorted(l, key=...)]

    The sort is stable and compares keys with [<] only.  An element goes
    in front of the first element of the already sorted tail whose key is
    not smaller than its own, so equal keys keep the order of the input. *)

(** [a <= b], said with [<] alone: not [b < a]. *)
Definition str_le (a b : string) : Prop := (b <? a) = false.

Section Sorted.
Variable A : Type.
Variable key : A -> string.

Definition key_le (a b : A) : Prop := str_le (key a) (key b).

Fixpoint insert_by_key (x : A) (l : list A) : list A :=
  match l with
  | [] => [x]
  | y :: l' =>
      if (key y <? key x)%string then y :: insert_by_key x l'
      else x :: y :: l'
  end.

Fixpoint sorted (l : list A) : list A :=
  match l with
  | [] => []
  | x :: l' => insert_by_key x (sorted l')
  end.
End Sorted.

(** ** Data model *)

(** [tach.check.ErrorInfo] and [tach.check.BoundaryError], with the
    attributes the dispatcher reads. *)
Record ErrorInfo := {
  exception_message : string;
  is_tag_error : bool;
  source_tags : list string;
  invalid_tags : list string
}.

Record BoundaryError := {
  file_path : string;
  line_number : Z;
  import_mod_path : string;
  error_info : ErrorInfo
}.

(** [tach.core.TagDependencyRules] *)
Record TagDependencyRules := {
  tag : string;
  depends_on : list string
}.

(** The project configuration returned by [parse_project_config]. *)
Module ProjectConfig.
Record t := {
  exact : bool;
  exclude : option (list string);
  exclude_hidden_paths : bool;
  constraints : list TagDependencyRules
}.
End ProjectConfig.

(** The [argparse.Namespace] of the parser of [build_parser], with the
    destinations of all sub-commands.  [exclude] is [None] both when the
    attribute is [None] and when the sub-command has no such attribute
    ([getattr(args, "exclude", None)]). *)
Module Namespace.
Record t := {
  command : option string;
  exclude : option string;
  exact : bool;
  prune : bool;
  force : bool;
  depth : option Z;
  path : string;
  tags : option string;
  target : string
}.

(** [Namespace(command=None)]: what the parser returns when no
    sub-command is given. *)
Definition no_command : t :=
  {| command := None; exclude := None; exact := false; prune := false;
     force := false; depth := None; path := ""; tags := None; target := "" |}.
End Namespace.

Inductive TerminalEnvironment := UNKNOWN | JETBRAINS | VSCODE.

Inductive InstallTarget := PRE_COMMIT.

(** The value of a target, and [InstallTarget.choices()]. *)
Definition install_target_value (target : InstallTarget) : string :=
  match target with PRE_COMMIT => "pre-commit" end.

Definition choices : list string := map install_target_value [PRE_COMMIT].

(** The list object a variable is bound to: the list the caller passed
    in, or the list held by the project configuration.  [items] is its
    content at that point. *)
Inductive ListObject := ArgumentList | ConfigExcludeList.

Record PyList := {
  object : ListObject;
  items : list string
}.

(** What the process does that is visible from outside: what it prints
    and which collaborators it calls, in order. *)
Inductive Event :=
| Stdout (line : string)
| Stderr (line : string)
| PrintHelp
| StartSpinner (label : string)
| StopSpinner
| CallValidateProjectConfigPath
| CallParseProjectConfig
| CallCheck (project_config : ProjectConfig.t)
        (exclude_paths : option PyList) (exclude_hidden_paths : bool)
| CallPruneDependencyConstraints (project_config : ProjectConfig.t)
        (exclude_paths : option PyList)
| CallFindExtraConstraints (pruned_config project_config : ProjectConfig.t)
| CallInitProject (depth : option Z) (exclude_paths : option (list string))
| CallSyncProject (prune : bool) (exclude_paths : option (list string))
| CallAddPackages (paths : list string) (tags : option (list string))
| CallFindProjectConfigRoot
| CallInput (prompt : string)
| CallCleanProject (root : string)
| CallInstallPreCommit (path : string).

(** [tach.colors.BCOLORS] *)
Record Colors := {
  FAIL : string;
  ENDC : string;
  WARNING : string;
  OKGREEN : string;
  OKCYAN : string
}.

(** ** Collaborators

    Everything the dispatcher imports and calls.  [FS] is the state of the
    project on disk (source tree, configuration file, git hooks).  The
    functions that only inspect it take it as an argument; the functions
    that write to it return the new state.  Any of them may raise or
    exit. *)
Class Collaborators := {
  FS : Type;
  (* tach.colors, tach.constants *)
  BCOLORS : Colors;
  TOOL_NAME : string;
  CONFIG_FILE_NAME : string;
  (* os.environ, os.path.abspath, input *)
  environ : string -> option string;
  abspath : string -> string;
  input : string -> Outcome string;
  (* str.format on a replacement field other than {message} *)
  format_other_field : string -> string -> PyExn + string;
  (* str.isprintable of the character of a code point above U+00FF *)
  isprintable : N -> bool;
  (* ArgumentParser.parse_args on a non-empty argument list *)
  parse_args_nonempty : list string -> Outcome Namespace.t;
  (* tach.filesystem, tach.parsing, tach.check, tach.sync, tach.core *)
  validate_project_config_path : FS -> Outcome unit;
  find_project_config_root : FS -> Outcome (option string);
  parse_project_config : FS -> Outcome ProjectConfig.t;
  check : FS -> ProjectConfig.t -> option (list string) -> bool ->
          Outcome (list BoundaryError);
  prune_dependency_constraints :
    FS -> ProjectConfig.t -> option (list string) -> Outcome ProjectConfig.t;
  find_extra_constraints :
    ProjectConfig.t -> ProjectConfig.t -> Outcome (list TagDependencyRules);
  (* tach.clean, tach.init, tach.sync, tach.add, tach.filesystem *)
  clean_project : string -> FS -> Outcome unit * FS;
  init_project : option Z -> option (list string) -> FS -> Outcome (list string) * FS;
  sync_project : bool -> option (list string) -> FS -> Outcome unit * FS;
  add_packages : list string -> option (list string) -> FS -> Outcome (list string) * FS;
  install_pre_commit : string -> FS -> Outcome (bool * string) * FS
}.

(** ** The process: state, output and exits *)

Section Process.
Context {C : Collaborators}.

Record State := {
  fs : FS;
  out : list Event
}.

Definition M (A : Type) : Type := State -> Outcome A * State.

Definition ret {A} (a : A) : M A := fun s => (Ret a, s).

Definition bind {A B} (m : M A) (k : A -> M B) : M B :=
  fun s =>
    match m s with
    | (Ret a, s') => k a s'
    | (Raise e, s') => (Raise e, s')
    | (Exit c, s') => (Exit c, s')
    end.

(** [raise e] and [sys.exit(code)] *)
Definition raise {A} (e : PyExn) : M A := fun s => (Raise e, s).
Definition sys_exit {A} (code : Z) : M A := fun s => (Exit code, s).

(** [try: body except Exception as e: handler(e)] *)
Definition try_except {A} (body : M A) (handler : PyExn -> M A) : M A :=
  fun s =>
    match body s with
    | (Raise e, s') => handler e s'
    | r => r
    end.

Definition emit (e : Event) : M unit :=
  fun s => (Ret tt, {| fs := fs s; out := (out s ++ [e])%list |}).

(** A computation without effect on the state. *)
Definition pure {A} (o : Outcome A) : M A := fun s => (o, s).

Definition returned {A} (r : PyExn + A) : M A :=
  match r with
  | inl e => raise e
  | inr a => ret a
  end.

(** A call of a collaborator that inspects the project. *)
Definition inspect {A} (e : Event) (f : FS -> Outcome A) : M A :=
  fun s => (f (fs s), {| fs := fs s; out := (out s ++ [e])%list |}).

(** A call of a collaborator that may change the project. *)
Definition change {A} (e : Event) (f : FS -> Outcome A * FS) : M A :=
  fun s => let (o, fs') := f (fs s) in
           (o, {| fs := fs'; out := (out s ++ [e])%list |}).

Definition print (line : string) : M unit := emit (Stdout line).
Definition print_stderr (line : string) : M unit := emit (Stderr line).
Definition start_spinner (label : string) : M unit := emit (StartSpinner label).
Definition stop_spinner : M unit := emit StopSpinner.

(** The exit status of the process: [sys.exit(code)] gives the low byte
    of [code], an exception nobody caught gives 1, and a normal return
    of [main] gives 0. *)
Definition exit_status {A} (o : Outcome A) : Z :=
  match o with
  | Ret _ => 0
  | Raise _ => 1
  | Exit code => code mod 256
  end.
End Process.

Declare Scope py_scope.
Delimit Scope py_scope with py.
Notation "x <- m ;; k" := (bind m (fun x => k))
  (at level 100, m at next level, right associativity) : py_scope.
Notation "m ;; k" := (bind m (fun _ => k))
  (at level 100, right associativity) : py_scope.

(** ** The dispatcher *)

Section CLI.
Context {C : Collaborators}.
Local Open Scope py_scope.

Definition environ_get (name default : string) : string :=
  match environ name with
  | Some v => v
  | None => default
  end.

Definition detect_environment : TerminalEnvironment :=
  if str_in "jetbrains" (lower (environ_get "TERMINAL_EMULATOR" "")) then JETBRAINS
  else if str_in "vscode" (lower (environ_get "TERM_PROGRAM" "")) then VSCODE
  else UNKNOWN.

Definition is_unknown (e : TerminalEnvironment) : bool :=
  match e with UNKNOWN => true | _ => false end.

(** [bool(line)] for an optional [int]: [None] and [0] are falsy. *)
Definition truthy_line (line : option Z) : bool :=
  match line with
  | Some n => negb (n =? 0)%Z
  | None => false
  end.

Definition create_clickable_link (file_path : string) (line : option Z) : string :=
  let terminal_env := detect_environment in
  let abs_path := abspath file_path in
  let link :=
    match terminal_env with
    | JETBRAINS =>
        match line with
        | Some n => "file://" ++ abs_path ++ ":" ++ str_int n
        | None => "file://" ++ abs_path
        end
    | VSCODE =>
        match line with
        | Some n => "vscode://file/" ++ abs_path ++ ":" ++ str_int n
        | None => "vscode://file/" ++ abs_path
        end
    | UNKNOWN => "file://" ++ abs_path
    end in
  let display_file_path :=
    match line with
    | Some n =>
        if truthy_line line && negb (is_unknown terminal_env)
        then file_path ++ "[L" ++ str_int n ++ "]"
        else file_path
    | None => file_path
    end in
  ESC ++ "]8;;" ++ link ++ ESC ++ BACKSLASH ++ display_file_path
      ++ ESC ++ "]8;;" ++ ESC ++ BACKSLASH.

Definition error_template (error : BoundaryError) : string :=
  let error_location :=
    create_clickable_link (file_path error) (Some (line_number error)) in
  "❌ " ++ FAIL BCOLORS ++ error_location ++ ENDC BCOLORS
       ++ WARNING BCOLORS ++ ": {message} " ++ ENDC BCOLORS.

Definition tag_message (error : BoundaryError) : string :=
  "Cannot import '" ++ import_mod_path error ++ "'. "
    ++ "Tags " ++ str_list isprintable (source_tags (error_info error))
    ++ " cannot depend on " ++ str_list isprintable (invalid_tags (error_info error)) ++ ".".

Definition build_error_message (error : BoundaryError) : PyExn + string :=
  let template := error_template error in
  let info := error_info error in
  if truthy (exception_message info)
  then format_message format_other_field template (exception_message info)
  else if negb (is_tag_error info)
  then format_message format_other_field template "Unexpected error"
  else format_message format_other_field template (tag_message error).

(** The loop of [print_errors] over the sorted list. *)
Fixpoint print_each (errors : list BoundaryError) : M unit :=
  match errors with
  | [] => ret tt
  | error :: rest =>
      line <- returned (build_error_message error) ;;
      print_stderr line ;;
      print_each rest
  end.

Definition print_errors (error_list : list BoundaryError) : M unit :=
  let sorted_results := sorted file_path error_list in
  print_each sorted_results.

Definition constraint_message (constraint : TagDependencyRules) : string :=
  TAB ++ WARNING BCOLORS ++ tag constraint ++ " does not depend on: "
      ++ str_list isprintable (depends_on constraint) ++ ENDC BCOLORS.

Definition print_extra_constraints (constraints : list TagDependencyRules) : M unit :=
  let constraint_messages := join NEWLINE (map constraint_message constraints) in
  print ("❌ " ++ FAIL BCOLORS ++ "Found unused dependencies: " ++ ENDC BCOLORS
              ++ NEWLINE ++ constraint_messages).

(** [parser.parse_args(args)] for the parser of [build_parser].  Its
    sub-command is optional ([add_subparsers] is called without
    [required]), so the empty argument list parses to a namespace whose
    [command] is [None].  On a usage error or [--help] argparse prints
    and exits. *)
Definition parse_args (args : list string) : Outcome Namespace.t :=
  match args with
  | [] => Ret Namespace.no_command
  | _ => parse_args_nonempty args
  end.

Definition index_error : PyExn := mkExn "IndexError" "list index out of range".

Definition setup_commands : list string := ["init"; "add"; "clean"; "sync"].

Definition str_in_list (x : string) (l : list string) : bool :=
  existsb (String.eqb x) l.

Definition parse_arguments (args : list string) : M Namespace.t :=
  parsed_args <- pure (parse_args args) ;;
  first <- match args with
           | [] => raise index_error
           | a :: _ => ret a
           end ;;
  (if negb (str_in_list first setup_commands)
   then inspect CallValidateProjectConfigPath validate_project_config_path
   else ret tt) ;;
  ret parsed_args.

(** Lines 234 to 239 of [tach_check]: the flag and the exclude list after
    the project configuration is read.  [extend] changes the caller's
    list in place; otherwise the variable is bound to the configuration's
    own list (or to [None]). *)
Definition effective_exact (exact : bool) (project_config : ProjectConfig.t) : bool :=
  if negb exact && ProjectConfig.exact project_config then true else exact.

Definition merge_exclude (exclude_paths : option (list string))
    (project_config : ProjectConfig.t) : option PyList :=
  match exclude_paths, ProjectConfig.exclude project_config with
  | Some paths, Some config_paths =>
      Some {| object := ArgumentList; items := (paths ++ config_paths)%list |}
  | _, Some config_paths =>
      Some {| object := ConfigExcludeList; items := config_paths |}
  | _, None => None
  end.

Definition is_empty {A} (l : list A) : bool :=
  match l with [] => true | _ => false end.

Definition check_body (exact : bool) (exclude_paths : option (list string))
  : M (list BoundaryError) :=
  project_config <- inspect CallParseProjectConfig parse_project_config ;;
  let exact := effective_exact exact project_config in
  let exclude_paths := merge_exclude exclude_paths project_config in
  boundary_errors <-
    inspect (CallCheck project_config exclude_paths
               (ProjectConfig.exclude_hidden_paths project_config))
            (fun fs => check fs project_config (option_map items exclude_paths)
                         (ProjectConfig.exclude_hidden_paths project_config)) ;;
  (if is_empty boundary_errors && exact then
     pruned_config <-
       inspect (CallPruneDependencyConstraints project_config exclude_paths)
               (fun fs => prune_dependency_constraints fs project_config
                            (option_map items exclude_paths)) ;;
     extra_constraints <-
       inspect (CallFindExtraConstraints pruned_config project_config)
               (fun _ => find_extra_constraints pruned_config project_config) ;;
     if negb (is_empty extra_constraints) then
       stop_spinner ;;
       print_extra_constraints extra_constraints ;;
       sys_exit 1
     else ret tt
   else ret tt) ;;
  ret boundary_errors.

Definition success (text : string) : string :=
  "✅ " ++ OKGREEN BCOLORS ++ text ++ ENDC BCOLORS.

Definition tach_check (exact : bool) (exclude_paths : option (list string)) : M unit :=
  boundary_errors <-
    try_except (check_body exact exclude_paths)
      (fun e => stop_spinner ;; print (exn_str e) ;; sys_exit 1) ;;
  stop_spinner ;;
  (if negb (is_empty boundary_errors) then
     print_errors boundary_errors ;;
     sys_exit 1
   else ret tt) ;;
  print (success "All package dependencies validated!") ;;
  sys_exit 0.

Definition tach_init (depth : option Z) (exclude_paths : option (list string)) : M unit :=
  warnings <-
    try_except (change (CallInitProject depth exclude_paths) (init_project depth exclude_paths))
      (fun e => print (exn_str e) ;; sys_exit 1) ;;
  (if negb (is_empty warnings) then print (join NEWLINE warnings) else ret tt) ;;
  print (success ("Initialized '" ++ CONFIG_FILE_NAME ++ ".yml'")) ;;
  sys_exit 0.

Definition tach_sync (prune : bool) (exclude_paths : option (list string)) : M unit :=
  try_except (change (CallSyncProject prune exclude_paths) (sync_project prune exclude_paths))
    (fun e => print (exn_str e) ;; sys_exit 1) ;;
  print (success "Synced dependencies.") ;;
  sys_exit 0.

(** [paths] and [tags] are sets: lists without repetition. *)
Definition to_set (l : list string) : list string := nodup string_dec l.

Definition tach_add (paths : list string) (tags : option (list string)) : M unit :=
  warnings <-
    try_except (change (CallAddPackages paths tags) (add_packages paths tags))
      (fun e => stop_spinner ;; print (exn_str e) ;; sys_exit 1) ;;
  stop_spinner ;;
  (if negb (is_empty warnings) then print (join NEWLINE warnings) else ret tt) ;;
  (if (1 <? length paths)%nat
   then print (success "Packages added.")
   else print (success "Package added.")) ;;
  sys_exit 0.

Definition tach_clean (force : bool) : M unit :=
  print (WARNING BCOLORS ++ "This will DELETE all existing configuration for "
           ++ TOOL_NAME ++ "." ++ ENDC BCOLORS) ;;
  found <- inspect CallFindProjectConfigRoot find_project_config_root ;;
  let root := match found with
              | Some r => if truthy r then r else "."
              | None => "."
              end in
  print (WARNING BCOLORS ++ "Deletion will occur for project with root: '"
           ++ abspath root ++ "'" ++ ENDC BCOLORS) ;;
  confirmed <-
    (if force then ret true
     else
       let prompt := OKCYAN BCOLORS ++ "Confirm deletion [y/N]? " ++ ENDC BCOLORS ++ ": " in
       response <- inspect (CallInput prompt) (fun _ => input prompt) ;;
       ret (str_in_list (lower response) ["y"; "yes"])) ;;
  if confirmed : bool then
    change (CallCleanProject root) (clean_project root)
  else
    print (OKCYAN BCOLORS ++ "Not deleting configuration." ++ ENDC BCOLORS).

(** [InstallTarget(value)] *)
Definition install_target_of (value : string) : Outcome InstallTarget :=
  if String.eqb value "pre-commit" then Ret PRE_COMMIT
  else Raise (mkExn "ValueError" ("'" ++ value ++ "' is not a valid InstallTarget")).

Definition tach_install (path : string) (target : InstallTarget) : M unit :=
  result <-
    try_except
      (match target with
       | PRE_COMMIT => change (CallInstallPreCommit path) (install_pre_commit path)
       end)
      (fun e => print (exn_str e) ;; sys_exit 1) ;;
  let (installed, warning) := result : bool * string in
  if installed then
    print (success "Pre-commit hook installed to '.git/hooks/pre-commit'.") ;;
    sys_exit 0
  else
    print (WARNING BCOLORS ++ "Pre-commit hook could not be installed: "
             ++ warning ++ " " ++ ENDC BCOLORS) ;;
    sys_exit 1.

Definition command_is (args : Namespace.t) (name : string) : bool :=
  match Namespace.command args with
  | Some c => String.eqb c name
  | None => false
  end.

(** Line 373: the comma-separated exclude option. *)
Definition exclude_paths_of (args : Namespace.t) : option (list string) :=
  match Namespace.exclude args with
  | Some e => if truthy e then Some (split "," e) else None
  | None => None
  end.

(** Lines 368 to 393 of [main]: the command is carried out. *)
Definition main_dispatch (args : Namespace.t) : M unit :=
  if command_is args "add" then
    let paths := to_set (split "," (Namespace.path args)) in
    let tags := match Namespace.tags args with
                | Some t => if truthy t then Some (to_set (split "," t)) else None
                | None => None
                end in
    tach_add paths tags
  else
    let exclude_paths := exclude_paths_of args in
    if command_is args "init" then
      tach_init (Namespace.depth args) exclude_paths
    else if command_is args "sync" then
      tach_sync (Namespace.prune args) exclude_paths
    else if command_is args "check" then
      start_spinner "Scanning..." ;;
      tach_check (Namespace.exact args) exclude_paths
    else if command_is args "clean" then
      tach_clean (Namespace.force args)
    else if command_is args "install" then
      match install_target_of (Namespace.target args) with
      | Ret install_target =>
          tach_install (Namespace.path args) install_target
      | _ =>
          print (Namespace.target args ++ " is not a valid installation target.") ;;
          sys_exit 1
      end
    else
      print "Unrecognized command" ;;
      emit PrintHelp ;;
      sys_exit 1.

(** [main], on [sys.argv[1:]]. *)
Definition main (argv : list string) : M unit :=
  args <- parse_arguments argv ;;
  main_dispatch args.

(** A run of the process from a project state, with nothing printed yet. *)
Definition initial (project : FS) : State := {| fs := project; out := [] |}.

Definition run {A} (m : M A) (project : FS) : Outcome A * State :=
  m (initial project).

End CLI.

(** ** The parser

    [build_parser] as data: the sub-commands and, for each, its
    arguments with what [add_argument] is given; [dest] is the
    destination argparse derives from the first long option or from the
    positional name.  The texts shown by [--help] ([prog], [help],
    [description], [metavar], [epilog]) are left out. *)
Module Argparse.

(** [InstallTarget.choices()], as [build_parser] calls it. *)
Definition install_target_choices : list string := choices.

Inductive Action := Store | StoreTrue.
Inductive ArgType := Str | Int.

(** An [add_argument] call: [type] and [default] are [None] where the
    call leaves them out, [optional_value] is a [nargs] of one optional
    value, a positional argument has no option string and is required. *)
Record Argument := {
  option_strings : list string;
  dest : string;
  action : Action;
  type : option ArgType;
  optional_value : bool;
  required : bool;
  default : option string;
  choices : option (list string)
}.

Record SubParser := {
  name : string;
  arguments : list Argument
}.

(** [add_base_arguments]: the option every scanning command has. *)
Definition add_base_arguments : Argument :=
  {| option_strings := ["-e"; "--exclude"]; dest := "exclude"; action := Store;
     type := Some Str; optional_value := false; required := false;
     default := None; choices := None |}.

Definition depth : Argument :=
  {| option_strings := ["-d"; "--depth"]; dest := "depth"; action := Store;
     type := Some Int; optional_value := true; required := false;
     default := None; choices := None |}.

Definition exact : Argument :=
  {| option_strings := ["--exact"]; dest := "exact"; action := StoreTrue;
     type := None; optional_value := false; required := false;
     default := None; choices := None |}.

Definition path : Argument :=
  {| option_strings := []; dest := "path"; action := Store;
     type := Some Str; optional_value := false; required := true;
     default := None; choices := None |}.

Definition tags : Argument :=
  {| option_strings := ["-t"; "--tags"]; dest := "tags"; action := Store;
     type := Some Str; optional_value := false; required := false;
     default := None; choices := None |}.

Definition target : Argument :=
  {| option_strings := []; dest := "target"; action := Store;
     type := None; optional_value := false; required := true;
     default := None; choices := Some install_target_choices |}.

Definition install_path : Argument :=
  {| option_strings := ["-p"; "--path"]; dest := "path"; action := Store;
     type := Some Str; optional_value := false; required := false;
     default := Some "."; choices := None |}.

Definition prune : Argument :=
  {| option_strings := ["--prune"]; dest := "prune"; action := StoreTrue;
     type := None; optional_value := false; required := false;
     default := None; choices := None |}.

Definition force : Argument :=
  {| option_strings := ["--force"]; dest := "force"; action := StoreTrue;
     type := None; optional_value := false; required := false;
     default := None; choices := None |}.

(** The sub-parsers, in the order [build_parser] adds them. *)
Definition build_parser : list SubParser :=
  [ {| name := "init"; arguments := [depth; add_base_arguments] |};
    {| name := "check"; arguments := [exact; add_base_arguments] |};
    {| name := "add"; arguments := [path; tags] |};
    {| name := "install"; arguments := [target; install_path] |};
    {| name := "sync"; arguments := [prune; add_base_arguments] |};
    {| name := "clean"; arguments := [force] |} ].

(** The sub-command [command] has a destination [d]. *)
Definition declares (command d : string) : bool :=
  existsb (fun sub => String.eqb (name sub) command
                      && existsb (fun a => String.eqb (dest a) d) (arguments sub))
          build_parser.

Definition is_command (command : string) : bool :=
  existsb (fun sub => String.eqb (name sub) command) build_parser.

End Argparse.

(** ** Reading a run *)

Section Reading.
Context {C : Collaborators}.

(** What the loop of [print_errors] writes to stderr on a list: the
    messages of the errors up to the first one whose message cannot be
    built; and how the loop ends. *)
Fixpoint report_lines (errors : list BoundaryError) : list string :=
  match errors with
  | [] => []
  | error :: rest =>
      match build_error_message error with
      | inr line => line :: report_lines rest
      | inl _ => []
      end
  end.

Fixpoint report_outcome (errors : list BoundaryError) : Outcome unit :=
  match errors with
  | [] => Ret tt
  | error :: rest =>
      match build_error_message error with
      | inr _ => report_outcome rest
      | inl e => Raise e
      end
  end.

(** No brace in a string: [str.format] copies it as it is. *)
Fixpoint no_brace (s : string) : bool :=
  match s with
  | EmptyString => true
  | String c s' => negb (Ascii.eqb c "{") && negb (Ascii.eqb c "}") && no_brace s'
  end.

(** The template of an error has no brace besides its [{message}] field:
    none in the colour codes, in the file path, or in its absolute path. *)
Definition plain_template (error : BoundaryError) : bool :=
  no_brace (FAIL BCOLORS) && no_brace (ENDC BCOLORS) && no_brace (WARNING BCOLORS)
  && no_brace (file_path error) && no_brace (abspath (file_path error)).

(** The error line with [message] in the place of the field. *)
Definition error_line (error : BoundaryError) (message : string) : string :=
  "❌ " ++ FAIL BCOLORS
       ++ create_clickable_link (file_path error) (Some (line_number error))
       ++ ENDC BCOLORS ++ WARNING BCOLORS ++ ": " ++ message ++ " " ++ ENDC BCOLORS.

(** The line [print_extra_constraints] prints. *)
Definition extra_constraints_report (constraints : list TagDependencyRules) : string :=
  "❌ " ++ FAIL BCOLORS ++ "Found unused dependencies: " ++ ENDC BCOLORS
       ++ NEWLINE ++ join NEWLINE (map constraint_message constraints).

Definition success_line : string := success "All package dependencies validated!".

Definition is_prune_call (e : Event) : bool :=
  match e with CallPruneDependencyConstraints _ _ => true | _ => false end.

Definition is_clean_call (e : Event) : bool :=
  match e with CallCleanProject _ => true | _ => false end.

Definition is_input_call (e : Event) : bool :=
  match e with CallInput _ => true | _ => false end.

(** Scanning the source tree: the calls of the validator and of the
    synchronizer, and the spinner that announces them. *)
Definition is_scan (e : Event) : bool :=
  match e with
  | StartSpinner _ | CallCheck _ _ _ | CallPruneDependencyConstraints _ _ => true
  | _ => false
  end.

Definition is_stderr (e : Event) : bool :=
  match e with Stderr _ => true | _ => false end.

(** The arguments [main] hands to [tach_check] once the arguments are
    parsed: what is left of [main] for the [check] command. *)
Definition check_command (args : Namespace.t) : M unit :=
  bind (start_spinner "Scanning...")
       (fun _ => tach_check (Namespace.exact args) (exclude_paths_of args)).

(** The root [tach_clean] works on. *)
Definition clean_root (found : option string) : string :=
  match found with
  | Some r => if truthy r then r else "."
  | None => "."
  end.

Definition confirm_prompt : string :=
  OKCYAN BCOLORS ++ "Confirm deletion [y/N]? " ++ ENDC BCOLORS ++ ": ".

(** The message [build_error_message] puts into the template. *)
Definition shown_message (error : BoundaryError) : string :=
  let info := error_info error in
  if truthy (exception_message info) then exception_message info
  else if negb (is_tag_error info) then "Unexpected error"
  else tag_message error.

(** The calls [tach_check] makes for a configuration, and what they
    answer on a project. *)
Definition check_call (exclude_paths : option (list string))
    (cfg : ProjectConfig.t) : Event :=
  CallCheck cfg (merge_exclude exclude_paths cfg)
            (ProjectConfig.exclude_hidden_paths cfg).

Definition prune_call (exclude_paths : option (list string))
    (cfg : ProjectConfig.t) : Event :=
  CallPruneDependencyConstraints cfg (merge_exclude exclude_paths cfg).

Definition validator (project : FS) (exclude_paths : option (list string))
    (cfg : ProjectConfig.t) : Outcome (list BoundaryError) :=
  check project cfg (option_map items (merge_exclude exclude_paths cfg))
        (ProjectConfig.exclude_hidden_paths cfg).

Definition pruner (project : FS) (exclude_paths : option (list string))
    (cfg : ProjectConfig.t) : Outcome ProjectConfig.t :=
  prune_dependency_constraints project cfg
    (option_map items (merge_exclude exclude_paths cfg)).

(** The same error at another line. *)
Definition at_line (error : BoundaryError) (line : Z) : BoundaryError :=
  {| file_path := file_path error;
     line_number := line;
     import_mod_path := import_mod_path error;
     error_info := error_info error |}.

(** The lines of [tach_clean]. *)
Definition clean_warning : Event :=
  Stdout (WARNING BCOLORS ++ "This will DELETE all existing configuration for "
            ++ TOOL_NAME ++ "." ++ ENDC BCOLORS).

Definition clean_root_notice (root : string) : Event :=
  Stdout (WARNING BCOLORS ++ "Deletion will occur for project with root: '"
            ++ abspath root ++ "'" ++ ENDC BCOLORS).

Definition not_deleting : Event :=
  Stdout (OKCYAN BCOLORS ++ "Not deleting configuration." ++ ENDC BCOLORS).

(** A computation that only adds to what was printed and called, and
    does not look at it: from any state it does what it does from the
    initial state of the same project. *)
Definition framed {A} (m : M A) : Prop :=
  forall s,
    m s = (fst (m (initial (fs s))),
           {| fs := fs (snd (m (initial (fs s))));
              out := (out s ++ out (snd (m (initial (fs s)))))%list |}).

(** A terminal hyperlink: the target, then the text shown. *)
Definition hyperlink (target text : string) : string :=
  ESC ++ "]8;;" ++ target ++ ESC ++ BACKSLASH ++ text
      ++ ESC ++ "]8;;" ++ ESC ++ BACKSLASH.

(** A namespace with another value of [exclude]. *)
Definition with_exclude (args : Namespace.t) (e : option string) : Namespace.t :=
  {| Namespace.command := Namespace.command args;
     Namespace.exclude := e;
     Namespace.exact := Namespace.exact args;
     Namespace.prune := Namespace.prune args;
     Namespace.force := Namespace.force args;
     Namespace.depth := Namespace.depth args;
     Namespace.path := Namespace.path args;
     Namespace.tags := Namespace.tags args;
     Namespace.target := Namespace.target args |}.

(** The command of a namespace is a sub-command of the parser. *)
Definition known_command (args : Namespace.t) : bool :=
  match Namespace.command args with
  | Some c => Argparse.is_command c
  | None => false
  end.

(** The scheme of the link target in a terminal. *)
Definition link_scheme (terminal_env : TerminalEnvironment) : string :=
  match terminal_env with
  | VSCODE => "vscode://file/"
  | _ => "file://"
  end.

(** The command whose function makes a call that may change the
    project. *)
Definition changing_command (e : Event) : option string :=
  match e with
  | CallInitProject _ _ => Some "init"
  | CallSyncProject _ _ => Some "sync"
  | CallAddPackages _ _ => Some "add"
  | CallCleanProject _ => Some "clean"
  | CallInstallPreCommit _ => Some "install"
  | _ => None
  end.

(** An event that is no call of a changing collaborator but the one of
    the command [name]. *)
Definition only (name : string) (e : Event) : Prop :=
  forall c, changing_command e = Some c -> c = name.

(** Every event a computation adds satisfies [P]. *)
Definition emits (P : Event -> Prop) {A} (m : M A) : Prop :=
  forall s e, In e (out (snd (m s))) -> In e (out s) \/ P e.

(** A computation that always ends in [sys.exit] or in an exception. *)
Definition never_returns {A} (m : M A) : Prop :=
  forall s a, fst (m s) <> Ret a.

(** The warnings [tach_init] and [tach_add] print, if there are any. *)
Definition warning_lines (warnings : list string) : list Event :=
  if is_empty warnings then [] else [Stdout (join NEWLINE warnings)].

(** Lines 369 and 370 of [main]: the arguments of [tach_add]. *)
Definition add_paths (args : Namespace.t) : list string :=
  to_set (split "," (Namespace.path args)).

Definition add_tags (args : Namespace.t) : option (list string) :=
  match Namespace.tags args with
  | Some t => if truthy t then Some (to_set (split "," t)) else None
  | None => None
  end.

(** How the process ends after the loop of [print_errors]. *)
Definition after_report (errors : list BoundaryError) : Outcome unit :=
  match report_outcome errors with
  | Ret _ => Exit 1
  | other => other
  end.

End Reading.

(** ** A project in memory

    A concrete set of collaborators, used to run the dispatcher on
    examples: the project on disk is its configuration, if there is one;
    the validator reports [errors], the synchronizer finds the rules
    [unused] to be unused, and the user answers [response]. *)

Module Example.

Definition colors : Colors :=
  {| FAIL := ESC ++ "[91m"; ENDC := ESC ++ "[0m"; WARNING := ESC ++ "[93m";
     OKGREEN := ESC ++ "[92m"; OKCYAN := ESC ++ "[96m" |}.

Definition flag (name : string) (args : list string) : bool :=
  existsb (String.eqb name) args.

Fixpoint option_value (name : string) (args : list string) : option string :=
  match args with
  | a :: ((v :: _) as rest) =>
      if String.eqb a name then Some v else option_value name rest
  | _ => None
  end.

Definition known_commands : list string :=
  ["init"; "check"; "add"; "install"; "sync"; "clean"].

(** A small command-line reader: the command, then [--exact], [--prune],
    [--force] and [-e paths]; anything else is a usage error. *)
Definition read_args (args : list string) : Outcome Namespace.t :=
  match args with
  | c :: rest =>
      if existsb (String.eqb c) known_commands then
        Ret {| Namespace.command := Some c;
               Namespace.exclude := option_value "-e" rest;
               Namespace.exact := flag "--exact" rest;
               Namespace.prune := flag "--prune" rest;
               Namespace.force := flag "--force" rest;
               Namespace.depth := None;
               Namespace.path := ".";
               Namespace.tags := None;
               Namespace.target := "pre-commit" |}
      else Exit 2
  | [] => Exit 2
  end.

(** The part of the Unicode database the examples need: the spaces and
    marks from U+2000 to U+200F and the private use area are not
    printable. *)
Definition unicode_printable (cp : N) : bool :=
  negb (((8192 <=? cp) && (cp <=? 8207)) || ((57344 <=? cp) && (cp <=? 63743)))%N.

Definition missing_config : PyExn :=
  mkExn "FileNotFoundError" "tach.yml not found".

Definition project (term_program : option string) (errors : list BoundaryError)
    (unused : list TagDependencyRules) (response : string) : Collaborators :=
  {| FS := option ProjectConfig.t;
     BCOLORS := colors;
     TOOL_NAME := "tach";
     CONFIG_FILE_NAME := "tach";
     environ := fun name => if String.eqb name "TERM_PROGRAM" then term_program else None;
     abspath := fun p => "/project/" ++ p;
     input := fun _ => Ret response;
     format_other_field := fun _ _ => inl (mkExn "KeyError" "");
     isprintable := unicode_printable;
     parse_args_nonempty := read_args;
     validate_project_config_path :=
       fun fs => match fs with Some _ => Ret tt | None => Exit 1 end;
     find_project_config_root :=
       fun fs => match fs with Some _ => Ret (Some ".") | None => Ret None end;
     parse_project_config :=
       fun fs => match fs with Some cfg => Ret cfg | None => Raise missing_config end;
     check := fun _ _ _ _ => Ret errors;
     prune_dependency_constraints := fun _ cfg _ => Ret cfg;
     find_extra_constraints := fun _ _ => Ret unused;
     clean_project := fun _ _ => (Ret tt, None);
     init_project := fun _ _ fs => (Ret [], fs);
     sync_project := fun _ _ fs => (Ret tt, fs);
     add_packages := fun _ _ fs => (Ret [], fs);
     install_pre_commit := fun _ fs => (Ret (true, ""), fs) |}.

Definition config (exact : bool) (exclude : option (list string)) : ProjectConfig.t :=
  {| ProjectConfig.exact := exact;
     ProjectConfig.exclude := exclude;
     ProjectConfig.exclude_hidden_paths := true;
     ProjectConfig.constraints := [{| tag := "low"; depends_on := ["high"] |}] |}.

Definition tag_error (file : string) (line : Z) : BoundaryError :=
  {| file_path := file;
     line_number := line;
     import_mod_path := "api.views";
     error_info := {| exception_message := "";
                      is_tag_error := true;
                      source_tags := ["low"];
                      invalid_tags := ["high"] |} |}.

Definition parse_failure (file : string) : BoundaryError :=
  {| file_path := file;
     line_number := 1;
     import_mod_path := "";
     error_info := {| exception_message := "invalid syntax";
                      is_tag_error := false;
                      source_tags := [];
                      invalid_tags := [] |} |}.

(** The line for [tag_error "core/b.py" 7] in a generic terminal. *)
Definition generic_line : string :=
  "❌ " ++ ESC ++ "[91m"
    ++ ESC ++ "]8;;file:///project/core/b.py" ++ ESC ++ BACKSLASH
    ++ "core/b.py" ++ ESC ++ "]8;;" ++ ESC ++ BACKSLASH
    ++ ESC ++ "[0m" ++ ESC ++ "[93m"
    ++ ": Cannot import 'api.views'. Tags ['low'] cannot depend on ['high']. "
    ++ ESC ++ "[0m".

(** The line for [parse_failure "core/a.py"] in a generic terminal. *)
Definition failure_line : string :=
  "❌ " ++ ESC ++ "[91m"
    ++ ESC ++ "]8;;file:///project/core/a.py" ++ ESC ++ BACKSLASH
    ++ "core/a.py" ++ ESC ++ "]8;;" ++ ESC ++ BACKSLASH
    ++ ESC ++ "[0m" ++ ESC ++ "[93m" ++ ": invalid syntax " ++ ESC ++ "[0m".

Definition unused_rule : TagDependencyRules :=
  {| tag := "low"; depends_on := ["high"] |}.

(** A clean project in a generic terminal, one with violations, one with
    an unused rule, one in a VS Code terminal. *)
Definition clean : Collaborators := project None [] [] "".
Definition violating : Collaborators :=
  project None [tag_error "core/b.py" 7; parse_failure "core/a.py"] [] "".
Definition over_permissive : Collaborators := project None [] [unused_rule] "".
Definition in_vscode : Collaborators := project (Some "vscode") [] [] "".
Definition answering (response : string) : Collaborators := project None [] [] response.
Definition braced : Collaborators := project None [parse_failure "a}.py"] [] "".

(** Collaborators that raise [e] wherever they are called, in a project
    with a configuration; the hook installer declines instead. *)
Definition failing (e : PyExn) : Collaborators :=
  {| FS := option ProjectConfig.t;
     BCOLORS := colors;
     TOOL_NAME := "tach";
     CONFIG_FILE_NAME := "tach";
     environ := fun _ => None;
     abspath := fun p => "/project/" ++ p;
     input := fun _ => Raise (mkExn "EOFError" "EOF when reading a line");
     format_other_field := fun _ _ => inl (mkExn "KeyError" "");
     isprintable := unicode_printable;
     parse_args_nonempty := read_args;
     validate_project_config_path := fun _ => Ret tt;
     find_project_config_root := fun _ => Ret (Some "");
     parse_project_config :=
       fun fs => match fs with Some cfg => Ret cfg | None => Raise missing_config end;
     check := fun _ _ _ _ => Raise e;
     prune_dependency_constraints := fun _ _ _ => Raise e;
     find_extra_constraints := fun _ _ => Raise e;
     clean_project := fun _ fs => (Raise e, fs);
     init_project := fun _ _ fs => (Raise e, fs);
     sync_project := fun _ _ fs => (Raise e, fs);
     add_packages := fun _ _ fs => (Raise e, fs);
     install_pre_commit := fun _ fs => (Ret (false, "not a git repository"), fs) |}.

Definition permission_denied : PyExn := mkExn "PermissionError" "permission denied".

(** The namespace of [add core,core]. *)
Definition adding_twice : Namespace.t :=
  {| Namespace.command := Some "add";
     Namespace.exclude := None;
     Namespace.exact := false;
     Namespace.prune := false;
     Namespace.force := false;
     Namespace.depth := None;
     Namespace.path := "core,core";
     Namespace.tags := None;
     Namespace.target := "" |}.

(** The namespace [read_args] gives for [check]. *)
Definition checking : Namespace.t :=
  {| Namespace.command := Some "check";
     Namespace.exclude := None;
     Namespace.exact := false;
     Namespace.prune := false;
     Namespace.force := false;
     Namespace.depth := None;
     Namespace.path := ".";
     Namespace.tags := None;
     Namespace.target := "pre-commit" |}.

(** The line for [tag_error "a.py" 3] in a generic terminal. *)
Definition first_line : string :=
  "❌ " ++ ESC ++ "[91m"
    ++ ESC ++ "]8;;file:///project/a.py" ++ ESC ++ BACKSLASH
    ++ "a.py" ++ ESC ++ "]8;;" ++ ESC ++ BACKSLASH
    ++ ESC ++ "[0m" ++ ESC ++ "[93m"
    ++ ": Cannot import 'api.views'. Tags ['low'] cannot depend on ['high']. "
    ++ ESC ++ "[0m".

(** The namespace [read_args] gives for [check -e tests/,ci/]. *)
Definition check_excluding : Namespace.t :=
  {| Namespace.command := Some "check";
     Namespace.exclude := Some "tests/,ci/";
     Namespace.exact := false;
     Namespace.prune := false;
     Namespace.force := false;
     Namespace.depth := None;
     Namespace.path := ".";
     Namespace.tags := None;
     Namespace.target := "pre-commit" |}.

End Example.

(** ** Tactics for runs

    A run is unfolded down to the answers of the collaborators; what is
    left is a case analysis on those answers and on the list of events. *)

Ltac run_check :=
  unfold run, tach_check, check_body, try_except, bind, inspect, initial,
    validator, pruner, check_call, prune_call in *;
  cbn [fs out fst snd] in *.

Ltac step := cbn [fs out fst snd app is_empty negb andb] in *.

Ltac finish_run :=
  unfold stop_spinner, print_extra_constraints, print, print_stderr, emit,
    sys_exit, ret, raise, print_errors, bind, extra_constraints_report,
    success_line in *;
  step.

Ltac run_clean :=
  unfold run, tach_clean, bind, print, emit, inspect, change, ret, initial,
    clean_warning, clean_root_notice, not_deleting, confirm_prompt, clean_root in *;
  cbn [fs out fst snd app] in *.

(** [H : In e l] with [l] a list whose events all differ from [e] by
    their constructor. *)
Ltac in_cases H :=
  cbn [In app map] in H;
  first
    [ contradiction
    | discriminate H
    | let L := fresh "L" in
      let R := fresh "R" in
      destruct H as [L|R]; [discriminate L | in_cases R]
    | let L := fresh "L" in
      let R := fresh "R" in
      apply in_app_or in H; destruct H as [L|R]; [in_cases L | in_cases R]
    | let x := fresh "x" in
      let E := fresh "E" in
      apply in_map_iff in H; destruct H as (x & E & _); discriminate E ].

(** * Properties *)

(** ** The order of strings *)

Lemma ascii_compare_refl (a : ascii) : Ascii.compare a a = Eq.
Proof. unfold Ascii.compare. apply N.compare_refl. Qed.

Lemma ascii_compare_lt_trans (a b c : ascii) :
  Ascii.compare a b = Lt -> Ascii.compare b c = Lt -> Ascii.compare a c = Lt.
Proof.
  unfold Ascii.compare. rewrite !N.compare_lt_iff. apply N.lt_trans.
Qed.

Lemma string_compare_refl (s : string) : String.compare s s = Eq.
Proof.
  induction s as [|c s IH]; simpl; [reflexivity|].
  now rewrite ascii_compare_refl.
Qed.

Lemma string_compare_lt_trans (a b c : string) :
  String.compare a b = Lt -> String.compare b c = Lt -> String.compare a c = Lt.
Proof.
  revert b c. induction a as [|x a IH]; intros [|y b] [|z c]; simpl;
    try congruence.
  destruct (Ascii.compare x y) eqn:Hxy; try discriminate.
  - apply Ascii.compare_eq_iff in Hxy. subst y.
    destruct (Ascii.compare x z); try congruence. apply IH.
  - intros _. destruct (Ascii.compare y z) eqn:Hyz; try discriminate.
    + apply Ascii.compare_eq_iff in Hyz. subst z. now rewrite Hxy.
    + intros _. now rewrite (ascii_compare_lt_trans _ _ _ Hxy Hyz).
Qed.

Lemma ltb_irrefl (s : string) : (s <? s) = false.
Proof. unfold String.ltb. now rewrite string_compare_refl. Qed.

Lemma ltb_trans (a b c : string) :
  (a <? b) = true -> (b <? c) = true -> (a <? c) = true.
Proof.
  unfold String.ltb. intros Hab Hbc.
  destruct (String.compare a b) eqn:E1; try discriminate.
  destruct (String.compare b c) eqn:E2; try discriminate.
  now rewrite (string_compare_lt_trans _ _ _ E1 E2).
Qed.

(** Two strings are equal, or one is below the other. *)
Lemma ltb_trichotomy (a b : string) :
  (b <? a) = false -> a = b \/ (a <? b) = true.
Proof.
  unfold String.ltb. rewrite (String.compare_antisym b a).
  destruct (String.compare a b) eqn:E; simpl; intros H; try discriminate.
  - left. now apply String.compare_eq_iff.
  - now right.
Qed.

Lemma ltb_asym (a b : string) : (a <? b) = true -> (b <? a) = false.
Proof.
  intros H. destruct (b <? a) eqn:E; [|reflexivity].
  pose proof (ltb_trans _ _ _ H E) as F. now rewrite ltb_irrefl in F.
Qed.

Lemma str_le_refl (a : string) : str_le a a.
Proof. apply ltb_irrefl. Qed.

Lemma str_le_trans (a b c : string) : str_le a b -> str_le b c -> str_le a c.
Proof.
  unfold str_le. intros Hab Hbc.
  destruct (ltb_trichotomy _ _ Hab) as [-> | Hlt]; [assumption|].
  destruct (ltb_trichotomy _ _ Hbc) as [<- | Hlt']; [assumption|].
  apply ltb_asym. eapply ltb_trans; eassumption.
Qed.

Lemma str_le_antisym (a b : string) : str_le a b -> str_le b a -> a = b.
Proof.
  unfold str_le. intros Hab Hba.
  destruct (ltb_trichotomy _ _ Hab) as [-> | Hlt]; [reflexivity|congruence].
Qed.

(** ** [sorted] is the stable sort *)

Section SortedFacts.
Variable A : Type.
Variable key : A -> string.

Lemma insert_by_key_perm (x : A) (l : list A) :
  Permutation (insert_by_key key x l) (x :: l).
Proof.
  induction l as [|y l IH]; simpl; [reflexivity|].
  destruct (key y <? key x).
  - rewrite IH. apply perm_swap.
  - reflexivity.
Qed.

Lemma sorted_perm (l : list A) : Permutation (sorted key l) l.
Proof.
  induction l as [|x l IH]; simpl; [constructor|].
  rewrite insert_by_key_perm. now constructor.
Qed.

Lemma insert_by_key_sorted (x : A) (l : list A) :
  StronglySorted (key_le key) l -> StronglySorted (key_le key) (insert_by_key key x l).
Proof.
  induction 1 as [|y l Hs IH Hall]; simpl.
  - repeat constructor.
  - destruct (key y <? key x) eqn:E.
    + constructor; [exact IH|].
      apply (Permutation_Forall (Permutation_sym (insert_by_key_perm x l))).
      constructor; [|exact Hall].
      apply ltb_asym. exact E.
    + constructor; [now constructor|].
      constructor; [exact E|].
      eapply Forall_impl; [|exact Hall].
      intros z Hz. eapply str_le_trans; [exact E|exact Hz].
Qed.

Lemma sorted_sorted (l : list A) : StronglySorted (key_le key) (sorted key l).
Proof.
  induction l as [|x l IH]; simpl; [constructor|].
  now apply insert_by_key_sorted.
Qed.

(** Errors of one key keep the order they had. *)
Lemma insert_by_key_stable (p : string) (x : A) (l : list A) :
  filter (fun e => key e =? p) (insert_by_key key x l)
  = filter (fun e => key e =? p) (x :: l).
Proof.
  induction l as [|y l IH]; [reflexivity|].
  cbn [insert_by_key]. destruct (key y <? key x) eqn:E; [|reflexivity].
  cbn [filter] in *. rewrite IH.
  destruct (key x =? p) eqn:Ex, (key y =? p) eqn:Ey; try reflexivity.
  apply String.eqb_eq in Ex, Ey. rewrite Ex, Ey, ltb_irrefl in E. discriminate.
Qed.

Lemma sorted_stable (p : string) (l : list A) :
  filter (fun e => key e =? p) (sorted key l) = filter (fun e => key e =? p) l.
Proof.
  induction l as [|x l IH]; [reflexivity|].
  cbn [sorted]. rewrite insert_by_key_stable. cbn [filter]. now rewrite IH.
Qed.

(** With no key twice, an element is known by its key, and the sorted
    order of the elements is the only one. *)
Lemma key_determines (l : list A) (a b : A) :
  NoDup (map key l) -> In a l -> In b l -> key a = key b -> a = b.
Proof.
  induction l as [|x l IH]; cbn [map In]; [contradiction|].
  intros Hnd Ha Hb Hk. inversion Hnd as [|? ? Hx Hl]; subst.
  destruct Ha as [->|Ha], Hb as [->|Hb]; auto.
  - exfalso. apply Hx. rewrite Hk. now apply in_map.
  - exfalso. apply Hx. rewrite <- Hk. now apply in_map.
Qed.

Lemma sorted_unique_keys (l1 l2 : list A) :
  StronglySorted (key_le key) l1 -> StronglySorted (key_le key) l2 ->
  Permutation l1 l2 -> NoDup (map key l1) -> l1 = l2.
Proof.
  intros H1. revert l2.
  induction H1 as [|a l1 Hs1 IH Ha]; intros l2 H2 Hp Hnd.
  - now apply Permutation_nil in Hp.
  - destruct H2 as [|b l2 Hs2 Hb].
    + apply Permutation_sym, Permutation_nil in Hp. discriminate.
    + assert (In b (a :: l1)) as Hinb
        by (eapply Permutation_in; [apply Permutation_sym; exact Hp|now left]).
      assert (In a (b :: l2)) as Hina
        by (eapply Permutation_in; [exact Hp|now left]).
      assert (a = b) as ->.
      { apply (key_determines (a :: l1)); [exact Hnd|now left|exact Hinb|].
        apply str_le_antisym.
        - destruct Hinb as [->|Hin]; [apply str_le_refl|].
          rewrite Forall_forall in Ha. now apply Ha.
        - destruct Hina as [->|Hin]; [apply str_le_refl|].
          rewrite Forall_forall in Hb. now apply Hb. }
      f_equal. apply IH; [exact Hs2|now apply Permutation_cons_inv in Hp|].
      now inversion Hnd.
Qed.

Lemma sorted_keys (l : list A) :
  StronglySorted (key_le key) l -> StronglySorted str_le (map key l).
Proof.
  induction 1 as [|x l Hs IH Hall]; simpl; constructor; [exact IH|].
  apply Forall_map. exact Hall.
Qed.

End SortedFacts.

(** A sorted list of strings is determined by its elements. *)
Lemma sorted_strings_unique (l1 l2 : list string) :
  StronglySorted str_le l1 -> StronglySorted str_le l2 ->
  Permutation l1 l2 -> l1 = l2.
Proof.
  intros H1. revert l2.
  induction H1 as [|a l1 Hs1 IH Ha]; intros l2 H2 Hp.
  - now apply Permutation_nil in Hp.
  - destruct H2 as [|b l2 Hs2 Hb].
    + apply Permutation_sym, Permutation_nil in Hp. discriminate.
    + assert (a = b) as ->.
      { apply str_le_antisym.
        - assert (In b (a :: l1)) as [->|Hin]
            by (eapply Permutation_in; [apply Permutation_sym; exact Hp|now left]).
          + apply str_le_refl.
          + rewrite Forall_forall in Ha. now apply Ha.
        - assert (In a (b :: l2)) as [->|Hin]
            by (eapply Permutation_in; [exact Hp|now left]).
          + apply str_le_refl.
          + rewrite Forall_forall in Hb. now apply Hb. }
      f_equal. apply IH; [assumption|].
      eapply Permutation_cons_inv. exact Hp.
Qed.

Lemma sorted_keys_of_permutation A (key : A -> string) (l l' : list A) :
  Permutation l' l ->
  map key (sorted key l') = map key (sorted key l).
Proof.
  intros Hp. apply sorted_strings_unique.
  - apply sorted_keys, sorted_sorted.
  - apply sorted_keys, sorted_sorted.
  - apply Permutation_map.
    rewrite (sorted_perm key l'), (sorted_perm key l). exact Hp.
Qed.

(** ** Substrings *)

Lemma append_assoc' (a b c : string) : (a ++ b) ++ c = a ++ b ++ c.
Proof. induction a as [|x a IH]; simpl; [reflexivity|now rewrite IH]. Qed.

Lemma append_empty_r (a : string) : a ++ "" = a.
Proof. induction a as [|x a IH]; simpl; [reflexivity|now rewrite IH]. Qed.

Lemma prefix_spec (p s : string) :
  String.prefix p s = true <-> exists post, s = p ++ post.
Proof.
  revert s. induction p as [|a p IH]; intros s.
  - split; [intros _; now exists s|intros _; now destruct s].
  - destruct s as [|b s]; simpl.
    + split; [discriminate|intros [post H]; discriminate].
    + destruct (ascii_dec a b) as [->|Hne].
      * rewrite IH. split; intros [post H]; exists post; congruence.
      * split; [discriminate|]. intros [post H]. congruence.
Qed.

Lemma str_in_unfold (sub s : string) :
  str_in sub s =
  if String.prefix sub s then true
  else match s with
       | EmptyString => false
       | String _ s' => str_in sub s'
       end.
Proof. destruct s; reflexivity. Qed.

(** [str_in] decides [contains]. *)
Lemma str_in_spec (sub s : string) : str_in sub s = true <-> contains s sub.
Proof.
  split.
  - induction s as [|c s IH]; rewrite str_in_unfold;
      destruct (String.prefix sub _) eqn:E.
    + intros _. apply prefix_spec in E as [post ->]. now exists "", post.
    + discriminate.
    + intros _. apply prefix_spec in E as [post ->]. now exists "", post.
    + intros H. destruct (IH H) as (pre & post & ->).
      now exists (String c pre), post.
  - intros (pre & post & ->). induction pre as [|c pre IH].
    + rewrite str_in_unfold.
      replace (String.prefix sub ("" ++ sub ++ post)) with true; [reflexivity|].
      symmetry. apply prefix_spec. now exists post.
    + rewrite str_in_unfold. destruct (String.prefix sub _); [reflexivity|].
      exact IH.
Qed.

Lemma not_contains (sub s : string) : str_in sub s = false -> ~ contains s sub.
Proof. intros H Hc. apply str_in_spec in Hc. congruence. Qed.

Lemma contains_refl (s : string) : contains s s.
Proof. exists "", "". simpl. now rewrite append_empty_r. Qed.

Lemma contains_append_r (a b sub : string) : contains b sub -> contains (a ++ b) sub.
Proof.
  intros (pre & post & ->). exists (a ++ pre), post. now rewrite append_assoc'.
Qed.

Lemma contains_append_l (a b sub : string) : contains a sub -> contains (a ++ b) sub.
Proof.
  intros (pre & post & ->). exists pre, (post ++ b).
  now rewrite !append_assoc'.
Qed.

Lemma contains_trans (s t u : string) : contains s t -> contains t u -> contains s u.
Proof.
  intros (p1 & q1 & ->) (p2 & q2 & ->). exists (p1 ++ p2), (q2 ++ q1).
  now rewrite !append_assoc'.
Qed.

Lemma contains_inner (a b c : string) : contains (a ++ b ++ c) b.
Proof. now exists a, c. Qed.

Create HintDb contains.
#[local] Hint Resolve contains_refl contains_append_r contains_append_l : contains.

(** ** [split] and [join] *)

Lemma split_not_nil (sep : ascii) (s : string) : split sep s <> [].
Proof.
  destruct s as [|c s]; simpl; [discriminate|].
  destruct (Ascii.eqb c sep); [discriminate|].
  destruct (split sep s); discriminate.
Qed.

Lemma join_cons (sep x : string) (l : list string) :
  l <> [] -> join sep (x :: l) = x ++ sep ++ join sep l.
Proof. destruct l; [congruence|reflexivity]. Qed.

(** Joining the pieces with the separator gives the string back. *)
Lemma join_split (sep : ascii) (s : string) :
  join (String sep "") (split sep s) = s.
Proof.
  induction s as [|c s IH]; [reflexivity|].
  cbn [split]. destruct (Ascii.eqb c sep) eqn:E.
  - apply Ascii.eqb_eq in E. subst c.
    rewrite join_cons by apply split_not_nil. now rewrite IH.
  - pose proof (split_not_nil sep s) as Hne.
    destruct (split sep s) as [|w ws]; [congruence|].
    destruct ws as [|w' ws].
    + simpl in *. now rewrite IH.
    + cbn [join append] in IH |- *. f_equal. exact IH.
Qed.

(** No piece has the separator in it. *)
Lemma split_pieces (sep : ascii) (s : string) :
  Forall (fun piece => str_in (String sep "") piece = false) (split sep s).
Proof.
  induction s as [|c s IH]; cbn [split].
  - now constructor.
  - destruct (Ascii.eqb c sep) eqn:E.
    + constructor; [reflexivity|exact IH].
    + pose proof (split_not_nil sep s) as Hne.
      destruct (split sep s) as [|w ws]; [congruence|].
      inversion IH as [|? ? Hw Hws]; subst. constructor; [|exact Hws].
      rewrite str_in_unfold. simpl.
      destruct (ascii_dec sep c) as [->|_]; [|exact Hw].
      now rewrite Ascii.eqb_refl in E.
Qed.

Lemma join_contains (sep : string) (l : list string) (x : string) :
  In x l -> contains (join sep l) x.
Proof.
  induction l as [|y l IH]; [contradiction|].
  intros [->|Hin].
  - destruct l; [apply contains_refl|]. cbn [join].
    apply contains_append_l, contains_refl.
  - destruct l as [|z l]; [contradiction|]. cbn [join].
    do 2 apply contains_append_r. now apply IH.
Qed.

(** ** [str.format] on a template without stray braces *)

Lemma no_brace_append (a b : string) :
  no_brace (a ++ b) = no_brace a && no_brace b.
Proof.
  induction a as [|c a IH]; simpl; [reflexivity|].
  rewrite IH. now rewrite andb_assoc.
Qed.

Lemma format_literal f (m s : string) :
  no_brace s = true -> format_from f m 0 s = inr s.
Proof.
  induction s as [|c s IH]; [reflexivity|].
  simpl. intros H. apply andb_prop in H as [H Hs].
  apply andb_prop in H as [H1 H2].
  apply negb_true_iff in H1, H2. rewrite H1, H2, (IH Hs). reflexivity.
Qed.

Lemma prefix_empty (s : string) : String.prefix "" s = true.
Proof. now destruct s. Qed.

Lemma format_field f (m pre post : string) :
  no_brace pre = true -> no_brace post = true ->
  format_message f (pre ++ "{message}" ++ post) m = inr (pre ++ m ++ post).
Proof.
  unfold format_message. intros Hpre Hpost.
  induction pre as [|c pre IH].
  - simpl. now rewrite prefix_empty, (format_literal f m post Hpost).
  - simpl in Hpre. apply andb_prop in Hpre as [H Hs].
    apply andb_prop in H as [H1 H2]. apply negb_true_iff in H1, H2.
    specialize (IH Hs). cbn [append] in IH |- *. cbn [format_from].
    rewrite H1, H2, IH. reflexivity.
Qed.

(** ** Runs of the dispatcher *)

Section Runs.
Context {C : Collaborators}.

Lemma state_eta (s : State) : {| fs := fs s; out := out s |} = s.
Proof. now destruct s. Qed.

(** The loop of [print_errors] writes [report_lines] and ends as
    [report_outcome] says; it leaves the project alone. *)
Lemma print_each_run (errors : list BoundaryError) (s : State) :
  print_each errors s
  = (report_outcome errors,
     {| fs := fs s; out := (out s ++ map Stderr (report_lines errors))%list |}).
Proof.
  revert s. induction errors as [|error rest IH]; intros s; cbn.
  - now rewrite app_nil_r, state_eta.
  - unfold bind, returned. destruct (build_error_message error) as [e|line]; cbn.
    + now rewrite app_nil_r, state_eta.
    + rewrite IH. cbn. now rewrite <- app_assoc.
Qed.

(** A configuration that cannot be loaded: one line, exit 1. *)
Lemma tach_check_config_error exact exclude_paths project e :
  parse_project_config project = Raise e ->
  run (tach_check exact exclude_paths) project
  = (Exit 1, {| fs := project;
                out := [CallParseProjectConfig; StopSpinner; Stdout (exn_str e)] |}).
Proof. intros H. run_check. rewrite H. finish_run. reflexivity. Qed.

(** Violations: the report, then a non-zero exit. *)
Lemma tach_check_violations exact exclude_paths project cfg errors :
  parse_project_config project = Ret cfg ->
  validator project exclude_paths cfg = Ret errors ->
  errors <> [] ->
  run (tach_check exact exclude_paths) project
  = (after_report (sorted file_path errors),
     {| fs := project;
        out := ([CallParseProjectConfig; check_call exclude_paths cfg; StopSpinner]
                ++ map Stderr (report_lines (sorted file_path errors)))%list |}).
Proof.
  intros Hp Hc Hne. run_check. rewrite Hp, Hc.
  destruct errors as [|error errors]; [congruence|].
  finish_run. rewrite print_each_run. step. unfold after_report.
  destruct (report_outcome _) as [[]| |]; reflexivity.
Qed.

(** No violation, not in exact mode: success. *)
Lemma tach_check_pass exact exclude_paths project cfg :
  parse_project_config project = Ret cfg ->
  validator project exclude_paths cfg = Ret [] ->
  effective_exact exact cfg = false ->
  run (tach_check exact exclude_paths) project
  = (Exit 0,
     {| fs := project;
        out := [CallParseProjectConfig; check_call exclude_paths cfg; StopSpinner;
                Stdout success_line] |}).
Proof.
  intros Hp Hc Hx. run_check. rewrite Hp, Hc. step. rewrite Hx.
  finish_run. reflexivity.
Qed.

(** No violation, exact mode, no unused rule: success. *)
Lemma tach_check_exact_pass exact exclude_paths project cfg pruned :
  parse_project_config project = Ret cfg ->
  validator project exclude_paths cfg = Ret [] ->
  effective_exact exact cfg = true ->
  pruner project exclude_paths cfg = Ret pruned ->
  find_extra_constraints pruned cfg = Ret [] ->
  run (tach_check exact exclude_paths) project
  = (Exit 0,
     {| fs := project;
        out := [CallParseProjectConfig; check_call exclude_paths cfg;
                prune_call exclude_paths cfg; CallFindExtraConstraints pruned cfg;
                StopSpinner; Stdout success_line] |}).
Proof.
  intros Hp Hc Hx Hr He. run_check. rewrite Hp, Hc. step.
  rewrite Hx. step. rewrite Hr. step. rewrite He. finish_run. reflexivity.
Qed.

(** No violation, exact mode, unused rules: they are reported, exit 1. *)
Lemma tach_check_exact_extra exact exclude_paths project cfg pruned extra :
  parse_project_config project = Ret cfg ->
  validator project exclude_paths cfg = Ret [] ->
  effective_exact exact cfg = true ->
  pruner project exclude_paths cfg = Ret pruned ->
  find_extra_constraints pruned cfg = Ret extra ->
  extra <> [] ->
  run (tach_check exact exclude_paths) project
  = (Exit 1,
     {| fs := project;
        out := [CallParseProjectConfig; check_call exclude_paths cfg;
                prune_call exclude_paths cfg; CallFindExtraConstraints pruned cfg;
                StopSpinner; Stdout (extra_constraints_report extra)] |}).
Proof.
  intros Hp Hc Hx Hr He Hne. run_check. rewrite Hp, Hc. step.
  rewrite Hx. step. rewrite Hr. step. rewrite He.
  destruct extra as [|rule extra]; [congruence|].
  finish_run. reflexivity.
Qed.

(** Every run of [tach_check] starts by loading the configuration, and
    the validator is the next call, if there is one. *)
Lemma tach_check_trace_head exact exclude_paths project :
  exists rest,
    out (snd (run (tach_check exact exclude_paths) project))
    = CallParseProjectConfig :: rest
    /\ ~ In CallParseProjectConfig rest.
Proof.
  run_check.
  destruct (parse_project_config project) as [cfg|e|c]; step.
  2,3: finish_run; eexists; split; [reflexivity|]; intros H; in_cases H.
  destruct (check project cfg _ _) as [errors|e|c]; step.
  2,3: finish_run; eexists; split; [reflexivity|]; intros H; in_cases H.
  destruct errors as [|error errors]; step.
  2: { finish_run. rewrite print_each_run.
       destruct (report_outcome _) as [[]| |]; step;
         (eexists; split; [reflexivity|]; intros H; in_cases H). }
  destruct (effective_exact exact cfg); step.
  2: finish_run; eexists; split; [reflexivity|]; intros H; in_cases H.
  destruct (prune_dependency_constraints project cfg _) as [pruned|e|c]; step.
  2,3: finish_run; eexists; split; [reflexivity|]; intros H; in_cases H.
  destruct (find_extra_constraints pruned cfg) as [[|rule extra]|e|c]; step.
  all: finish_run; eexists; split; [reflexivity|]; intros H; in_cases H.
Qed.

(** A call of the synchronizer's prune step tells how the run went up to
    it. *)
Lemma prune_call_inv exact exclude_paths project cfg excl :
  In (CallPruneDependencyConstraints cfg excl)
     (out (snd (run (tach_check exact exclude_paths) project))) ->
  parse_project_config project = Ret cfg /\
  excl = merge_exclude exclude_paths cfg /\
  validator project exclude_paths cfg = Ret [] /\
  effective_exact exact cfg = true /\
  exists rest,
    out (snd (run (tach_check exact exclude_paths) project))
    = CallParseProjectConfig :: check_call exclude_paths cfg
        :: prune_call exclude_paths cfg :: rest
    /\ ~ In CallParseProjectConfig rest
    /\ ~ In (check_call exclude_paths cfg) rest
    /\ Forall (fun e => is_prune_call e = false) rest.
Proof.
  run_check.
  destruct (parse_project_config project) as [cfg0|e|c] eqn:Hp; step.
  2,3: finish_run; intros H; in_cases H.
  destruct (check project cfg0 _ _) as [errors|e|c] eqn:Hc; step.
  2,3: finish_run; intros H; in_cases H.
  destruct errors as [|error errors]; step.
  2: { finish_run. rewrite print_each_run.
       destruct (report_outcome _) as [[]| |]; step; intros H; in_cases H. }
  destruct (effective_exact exact cfg0) eqn:Hx; step.
  2: finish_run; intros H; in_cases H.
  destruct (prune_dependency_constraints project cfg0 _) as [pruned|e|c] eqn:Hr;
    step.
  all: try destruct (find_extra_constraints pruned cfg0)
         as [[|rule extra]|e|c] eqn:He; step.
  all: finish_run; intros H; cbn [In] in H.
  all: destruct H as [H|H]; [discriminate H|].
  all: destruct H as [H|H]; [discriminate H|].
  all: destruct H as [H|H]; [injection H as <- <-|in_cases H].
  all: repeat split; try assumption; try reflexivity.
  all: eexists; split; [reflexivity|].
  all: split; [intros H; in_cases H|].
  all: split; [intros H; in_cases H|].
  all: repeat constructor.
Qed.

(** *** Every command only adds events *)

Lemma framed_ret A (a : A) : framed (ret a).
Proof. intros s. cbn. now rewrite app_nil_r, state_eta. Qed.

Lemma framed_raise A (e : PyExn) : framed (raise e : M A).
Proof. intros s. cbn. now rewrite app_nil_r, state_eta. Qed.

Lemma framed_sys_exit A (c : Z) : framed (sys_exit c : M A).
Proof. intros s. cbn. now rewrite app_nil_r, state_eta. Qed.

Lemma framed_pure A (o : Outcome A) : framed (pure o).
Proof. intros s. cbn. now rewrite app_nil_r, state_eta. Qed.

Lemma framed_returned A (r : PyExn + A) : framed (returned r).
Proof. destruct r; [apply framed_raise|apply framed_ret]. Qed.

Lemma framed_emit (e : Event) : framed (emit e).
Proof. intros s. reflexivity. Qed.

Lemma framed_inspect A (e : Event) (f : FS -> Outcome A) : framed (inspect e f).
Proof. intros s. reflexivity. Qed.

Lemma framed_change A (e : Event) (f : FS -> Outcome A * FS) : framed (change e f).
Proof. intros s. unfold change. cbn. now destruct (f (fs s)). Qed.

Lemma framed_bind A B (m : M A) (k : A -> M B) :
  framed m -> (forall a, framed (k a)) -> framed (bind m k).
Proof.
  intros Hm Hk s. unfold bind. rewrite (Hm s).
  destruct (m (initial (fs s))) as [[a|e|c] s1]; cbn [fst snd fs out];
    try reflexivity.
  rewrite (Hk a {| fs := fs s1; out := (out s ++ out s1)%list |}).
  rewrite (Hk a s1). cbn [fst snd fs out]. now rewrite app_assoc.
Qed.

Lemma framed_try_except A (m : M A) (h : PyExn -> M A) :
  framed m -> (forall e, framed (h e)) -> framed (try_except m h).
Proof.
  intros Hm Hh s. unfold try_except. rewrite (Hm s).
  destruct (m (initial (fs s))) as [[a|e|c] s1]; cbn [fst snd fs out];
    try reflexivity.
  rewrite (Hh e {| fs := fs s1; out := (out s ++ out s1)%list |}).
  rewrite (Hh e s1). cbn [fst snd fs out]. now rewrite app_assoc.
Qed.

Lemma framed_print_each (errors : list BoundaryError) : framed (print_each errors).
Proof. intros s. rewrite !print_each_run. reflexivity. Qed.

Lemma framed_print (line : string) : framed (print line).
Proof. apply framed_emit. Qed.

Lemma framed_stop_spinner : framed stop_spinner.
Proof. apply framed_emit. Qed.

Lemma framed_start_spinner (label : string) : framed (start_spinner label).
Proof. apply framed_emit. Qed.

Lemma framed_print_errors (errors : list BoundaryError) : framed (print_errors errors).
Proof. apply framed_print_each. Qed.

Lemma framed_print_extra_constraints (constraints : list TagDependencyRules) :
  framed (print_extra_constraints constraints).
Proof. apply framed_emit. Qed.

(** What was there before stays in front. *)
Lemma framed_appends A (m : M A) (s : State) :
  framed m -> exists new, out (snd (m s)) = (out s ++ new)%list.
Proof. intros H. rewrite (H s). cbn. now eexists. Qed.

End Runs.

Create HintDb framed.
#[local] Hint Resolve framed_ret framed_raise framed_sys_exit framed_pure
  framed_returned framed_emit framed_inspect framed_change framed_print_each
  framed_print framed_stop_spinner framed_start_spinner framed_print_errors
  framed_print_extra_constraints : framed.
#[local] Hint Extern 1 (framed (bind _ _)) =>
  apply framed_bind; [|intros ?] : framed.
#[local] Hint Extern 1 (framed (try_except _ _)) =>
  apply framed_try_except; [|intros ?] : framed.
#[local] Hint Extern 1 (framed (if ?b then _ else _)) => destruct b : framed.
#[local] Hint Extern 1 (framed (match ?x with _ => _ end)) => destruct x : framed.
Section Commands.
Context {C : Collaborators}.

Lemma tach_check_framed exact exclude_paths : framed (tach_check exact exclude_paths).
Proof. unfold tach_check, check_body. auto 30 with framed. Qed.

Lemma tach_init_framed depth exclude_paths : framed (tach_init depth exclude_paths).
Proof. unfold tach_init. auto 30 with framed. Qed.

Lemma tach_sync_framed prune exclude_paths : framed (tach_sync prune exclude_paths).
Proof. unfold tach_sync. auto 30 with framed. Qed.

Lemma tach_add_framed paths tags : framed (tach_add paths tags).
Proof. unfold tach_add. auto 30 with framed. Qed.

Lemma tach_clean_framed force : framed (tach_clean force).
Proof. unfold tach_clean. auto 30 with framed. Qed.

Lemma tach_install_framed path target : framed (tach_install path target).
Proof. unfold tach_install. auto 30 with framed. Qed.

Lemma parse_arguments_framed argv : framed (parse_arguments argv).
Proof. unfold parse_arguments. auto 30 with framed. Qed.

#[local] Hint Resolve tach_check_framed tach_init_framed tach_sync_framed
  tach_add_framed tach_clean_framed tach_install_framed parse_arguments_framed
  : framed.

Lemma main_dispatch_framed args : framed (main_dispatch args).
Proof. unfold main_dispatch. auto 30 with framed. Qed.

Lemma main_framed argv : framed (main argv).
Proof.
  unfold main. apply framed_bind;
    [apply parse_arguments_framed|apply main_dispatch_framed].
Qed.

(** *** [parse_arguments] *)

Lemma parse_arguments_nil (s : State) :
  parse_arguments [] s = (Raise index_error, s).
Proof. reflexivity. Qed.

Lemma parse_arguments_setup first rest (s : State) :
  str_in_list first setup_commands = true ->
  parse_arguments (first :: rest) s = (parse_args_nonempty (first :: rest), s).
Proof.
  intros H. unfold parse_arguments, bind, pure, parse_args, ret.
  destruct (parse_args_nonempty _); cbv beta iota; try reflexivity.
  now rewrite H.
Qed.

Lemma parse_arguments_validated first rest (s : State) :
  str_in_list first setup_commands = false ->
  parse_arguments (first :: rest) s
  = match parse_args_nonempty (first :: rest) with
    | Ret args =>
        (match validate_project_config_path (fs s) with
         | Ret _ => Ret args
         | Raise e => Raise e
         | Exit c => Exit c
         end,
         {| fs := fs s; out := (out s ++ [CallValidateProjectConfigPath])%list |})
    | Raise e => (Raise e, s)
    | Exit c => (Exit c, s)
    end.
Proof.
  intros H. unfold parse_arguments, bind, pure, parse_args, inspect, ret.
  destruct (parse_args_nonempty _); cbv beta iota; try reflexivity.
  rewrite H. cbn [negb fs].
  destruct (validate_project_config_path (fs s)); reflexivity.
Qed.

Lemma command_is_check (args : Namespace.t) (name : string) :
  command_is args "check" = true -> name <> "check" -> command_is args name = false.
Proof.
  unfold command_is. destruct (Namespace.command args) as [c|]; [|discriminate].
  intros H Hne. apply String.eqb_eq in H. subst c.
  apply String.eqb_neq. congruence.
Qed.

(** For the [check] command, [main] starts the spinner and calls
    [tach_check] with the flag and the exclude option of the namespace. *)
Lemma main_check argv (s s' : State) (args : Namespace.t) :
  parse_arguments argv s = (Ret args, s') ->
  command_is args "check" = true ->
  main argv s = check_command args s'.
Proof.
  intros Hp Hc. unfold main, bind. rewrite Hp. unfold main_dispatch.
  rewrite !(command_is_check _ Hc) by discriminate. rewrite Hc.
  reflexivity.
Qed.

(** The whole run of [main] for the [check] command. *)
Lemma main_check_run argv project (s' : State) (args : Namespace.t) :
  run (parse_arguments argv) project = (Ret args, s') ->
  command_is args "check" = true ->
  run (main argv) project
  = (fst (run (tach_check (Namespace.exact args) (exclude_paths_of args)) (fs s')),
     {| fs := fs (snd (run (tach_check (Namespace.exact args)
                              (exclude_paths_of args)) (fs s')));
        out := (out s' ++ StartSpinner "Scanning..."
                  :: out (snd (run (tach_check (Namespace.exact args)
                                      (exclude_paths_of args)) (fs s'))))%list |}).
Proof.
  unfold run at 1 2. intros Hp Hc. rewrite (main_check _ _ Hp Hc).
  unfold check_command, bind, start_spinner, emit.
  rewrite tach_check_framed. cbn [fs out fst snd]. unfold run.
  now rewrite <- app_assoc.
Qed.

Lemma str_in_list_In (x : string) (l : list string) :
  str_in_list x l = true <-> In x l.
Proof.
  unfold str_in_list. rewrite existsb_exists. split.
  - intros (y & Hin & He). apply String.eqb_eq in He. now subst.
  - intros H. exists x. split; [exact H|apply String.eqb_refl].
Qed.

End Commands.

(** ** Error messages *)

Lemma no_brace_digits (d : Decimal.uint) : no_brace (NilEmpty.string_of_uint d) = true.
Proof. induction d; cbn; auto. Qed.

Lemma no_brace_str_int (n : Z) : no_brace (str_int n) = true.
Proof.
  unfold str_int, NilZero.string_of_int, NilZero.string_of_uint.
  destruct (Z.to_int n) as [d|d]; destruct d; cbn; auto using no_brace_digits.
Qed.

Section Messages.
Context {C : Collaborators}.

Lemma no_brace_link (error : BoundaryError) :
  plain_template error = true ->
  no_brace (create_clickable_link (file_path error) (Some (line_number error))) = true.
Proof.
  unfold plain_template, create_clickable_link. intros H.
  repeat (apply andb_prop in H as [H ?]).
  destruct detect_environment; destruct (truthy_line _);
    cbn [is_unknown negb andb];
    repeat (rewrite no_brace_append; apply andb_true_intro; split);
    auto using no_brace_str_int.
Qed.

(** With no stray brace in the template, the message is the error line
    around the shown message. *)
Lemma build_error_message_plain (error : BoundaryError) :
  plain_template error = true ->
  build_error_message error = inr (error_line error (shown_message error)).
Proof.
  intros H. pose proof (no_brace_link error H) as Hl.
  unfold plain_template in H. repeat (apply andb_prop in H as [H ?]).
  assert (forall m, format_message format_other_field (error_template error) m
                    = inr (error_line error m)) as Hf.
  { intros m. unfold error_template, error_line.
    set (loc := create_clickable_link _ _) in *.
    replace ("❌ " ++ FAIL BCOLORS ++ loc ++ ENDC BCOLORS ++ WARNING BCOLORS
               ++ ": {message} " ++ ENDC BCOLORS)
      with (("❌ " ++ FAIL BCOLORS ++ loc ++ ENDC BCOLORS ++ WARNING BCOLORS ++ ": ")
              ++ "{message}" ++ " " ++ ENDC BCOLORS)
      by (rewrite !append_assoc'; reflexivity).
    rewrite format_field.
    - rewrite !append_assoc'. reflexivity.
    - repeat (rewrite no_brace_append; apply andb_true_intro; split); auto.
    - rewrite no_brace_append. apply andb_true_intro; split; auto. }
  unfold build_error_message, shown_message.
  destruct (truthy _); [apply Hf|]. destruct (negb _); apply Hf.
Qed.

Lemma report_plain (errors : list BoundaryError) :
  Forall (fun e => plain_template e = true) errors ->
  report_lines errors = map (fun e => error_line e (shown_message e)) errors
  /\ report_outcome errors = Ret tt.
Proof.
  induction 1 as [|e errors He _ [IH1 IH2]]; cbn; [now split|].
  rewrite (build_error_message_plain e He). now rewrite IH1, IH2.
Qed.

Lemma report_outcome_cases (errors : list BoundaryError) :
  report_outcome errors = Ret tt \/ exists e, report_outcome errors = Raise e.
Proof.
  induction errors as [|error errors IH]; cbn; [now left|].
  destruct (build_error_message error); [right; now eexists|exact IH].
Qed.

Lemma exit_status_after_report (errors : list BoundaryError) :
  exit_status (after_report errors) = 1%Z.
Proof.
  unfold after_report.
  destruct (report_outcome_cases errors) as [->|[e ->]]; reflexivity.
Qed.

(** The loop writes a line for every error when it ends normally, and
    for fewer when it ends on an exception. *)
Lemma report_lines_length (errors : list BoundaryError) :
  (report_outcome errors = Ret tt
   /\ length (report_lines errors) = length errors)
  \/ (exists e, report_outcome errors = Raise e
      /\ (length (report_lines errors) < length errors)%nat).
Proof.
  induction errors as [|error errors IH]; cbn [report_outcome report_lines length];
    [now left|].
  destruct (build_error_message error) as [e|line].
  - right. exists e. split; [reflexivity|]. cbn [length]. lia.
  - destruct IH as [[Ho Hl]|(e & Ho & Hl)].
    + left. split; [exact Ho|]. cbn [length]. now rewrite Hl.
    + right. exists e. split; [exact Ho|]. cbn [length]. lia.
Qed.

(** The errors that are written, and the one the loop stops at. *)
Lemma report_lines_split (errors : list BoundaryError) :
  exists written rest,
    errors = (written ++ rest)%list
    /\ Forall2 (fun error line => build_error_message error = inr line)
         written (report_lines errors)
    /\ match rest with
       | [] => report_outcome errors = Ret tt
       | error :: _ =>
           exists e, build_error_message error = inl e
                     /\ report_outcome errors = Raise e
       end.
Proof.
  induction errors as [|error errors IH]; cbn [report_lines report_outcome].
  - exists [], []. repeat split. constructor.
  - destruct (build_error_message error) as [e|line] eqn:E.
    + exists [], (error :: errors). repeat split; [constructor|].
      exists e. now split.
    + destruct IH as (written & rest & Heq & Hw & Hr).
      exists (error :: written), rest. split; [cbn; now rewrite <- Heq|].
      split; [now constructor|exact Hr].
Qed.

(** An error whose message cannot be built makes the loop raise, and
    every line written is the message of an error of the list. *)
Lemma report_raises (errors : list BoundaryError) (error : BoundaryError) (e : PyExn) :
  In error errors -> build_error_message error = inl e ->
  exists e', report_outcome errors = Raise e'.
Proof.
  induction errors as [|x errors IH]; [contradiction|].
  intros Hin Hb. cbn [report_outcome].
  destruct (build_error_message x) as [e'|line] eqn:E; [now exists e'|].
  destruct Hin as [->|Hin]; [congruence|now apply IH].
Qed.

Lemma report_lines_built (errors : list BoundaryError) (line : string) :
  In line (report_lines errors) ->
  exists other, In other errors /\ build_error_message other = inr line.
Proof.
  induction errors as [|x errors IH]; [contradiction|].
  cbn [report_lines]. destruct (build_error_message x) as [e|l] eqn:E;
    [contradiction|].
  intros [<-|Hin].
  - exists x. split; [now left|exact E].
  - destruct (IH Hin) as (other & Ho & Hb). exists other. split; [now right|exact Hb].
Qed.

(** The report of unused dependencies has the line of every constraint,
    hence its tag and the list of the tags it does not depend on. *)
Lemma constraints_named (constraints : list TagDependencyRules)
    (constraint : TagDependencyRules) :
  In constraint constraints ->
  contains (extra_constraints_report constraints)
    (TAB ++ WARNING BCOLORS ++ tag constraint ++ " does not depend on: "
         ++ str_list isprintable (depends_on constraint) ++ ENDC BCOLORS)
  /\ contains (extra_constraints_report constraints) (tag constraint)
  /\ contains (extra_constraints_report constraints)
       (str_list isprintable (depends_on constraint)).
Proof.
  intros Hin.
  assert (contains (extra_constraints_report constraints)
            (constraint_message constraint)) as Hc.
  { unfold extra_constraints_report. do 5 apply contains_append_r.
    apply join_contains. now apply in_map. }
  split; [exact Hc|]. split; (eapply contains_trans; [exact Hc|]);
    unfold constraint_message.
  - do 2 apply contains_append_r. apply contains_append_l, contains_refl.
  - do 4 apply contains_append_r. apply contains_append_l, contains_refl.
Qed.

End Messages.

(** ** The [check] command *)

Section CheckCommand.
Context {C : Collaborators}.

(** Without violation and in exact mode, the prune step is called right
    after the validator, with the same arguments. *)
Lemma prune_is_called exact exclude_paths project cfg :
  parse_project_config project = Ret cfg ->
  validator project exclude_paths cfg = Ret [] ->
  effective_exact exact cfg = true ->
  exists rest,
    out (snd (run (tach_check exact exclude_paths) project))
    = CallParseProjectConfig :: check_call exclude_paths cfg
        :: prune_call exclude_paths cfg :: rest.
Proof.
  intros Hp Hc Hx. run_check. rewrite Hp, Hc. step. rewrite Hx. step.
  destruct (prune_dependency_constraints project cfg _) as [pruned|e|c]; step.
  all: try destruct (find_extra_constraints pruned cfg) as [[|rule extra]|e|c]; step.
  all: finish_run; eexists; reflexivity.
Qed.

Lemma effective_exact_orb exact cfg :
  effective_exact exact cfg = exact || ProjectConfig.exact cfg.
Proof.
  unfold effective_exact. destruct exact, (ProjectConfig.exact cfg); reflexivity.
Qed.

Lemma existsb_prune_call (trace : list Event) :
  existsb is_prune_call trace = true ->
  exists cfg excl, In (CallPruneDependencyConstraints cfg excl) trace.
Proof.
  intros H. apply existsb_exists in H as (e & Hin & He).
  destruct e; try discriminate He. eauto.
Qed.

(** C1: the prune step of an exact check runs only after the validator
    returned no boundary error (it is its next call, and never runs when
    a violation exists); when it runs and an extra constraint is found,
    the process exits with 1 after one printed text: the heading "Found
    unused dependencies" and, for every extra constraint in turn, a line
    with its tag and the list of the tags it does not depend on. *)
Theorem C1_prune_only_without_violations
    (exact : bool) (exclude_paths : option (list string)) (project : FS) :
  let result := run (tach_check exact exclude_paths) project in
  let trace := out (snd result) in
  (forall cfg excl,
      In (CallPruneDependencyConstraints cfg excl) trace ->
      parse_project_config project = Ret cfg /\
      validator project exclude_paths cfg = Ret [] /\
      effective_exact exact cfg = true /\
      exists rest,
        trace = CallParseProjectConfig :: check_call exclude_paths cfg
                  :: CallPruneDependencyConstraints cfg excl :: rest)
  /\ (forall cfg errors,
      parse_project_config project = Ret cfg ->
      validator project exclude_paths cfg = Ret errors ->
      errors <> [] ->
      existsb is_prune_call trace = false)
  /\ (forall cfg pruned extra,
      parse_project_config project = Ret cfg ->
      validator project exclude_paths cfg = Ret [] ->
      effective_exact exact cfg = true ->
      pruner project exclude_paths cfg = Ret pruned ->
      find_extra_constraints pruned cfg = Ret extra ->
      extra <> [] ->
      fst result = Exit 1 /\
      exit_status (fst result) <> 0%Z /\
      trace = [CallParseProjectConfig; check_call exclude_paths cfg;
               prune_call exclude_paths cfg; CallFindExtraConstraints pruned cfg;
               StopSpinner; Stdout (extra_constraints_report extra)] /\
      exists text,
        In (Stdout text) trace /\
        text = "❌ " ++ FAIL BCOLORS ++ "Found unused dependencies: " ++ ENDC BCOLORS
                 ++ NEWLINE
                 ++ join NEWLINE
                      (map (fun constraint =>
                              TAB ++ WARNING BCOLORS ++ tag constraint
                                  ++ " does not depend on: "
                                  ++ str_list isprintable (depends_on constraint)
                                  ++ ENDC BCOLORS)
                           extra) /\
        (forall line, In (Stdout line) trace -> line = text) /\
        forall constraint,
          In constraint extra ->
          contains text (tag constraint)
          /\ contains text (str_list isprintable (depends_on constraint))).
Proof.
  intros result trace. subst result trace. split; [|split].
  - intros cfg excl Hin.
    destruct (prune_call_inv _ _ _ _ _ Hin) as (Hp & He & Hc & Hx & rest & Ht & _).
    repeat split; try assumption. exists rest. rewrite Ht. now subst excl.
  - intros cfg errors Hp Hc Hne.
    destruct (existsb is_prune_call _) eqn:E; [|reflexivity].
    apply existsb_prune_call in E as (cfg' & excl & Hin).
    destruct (prune_call_inv _ _ _ _ _ Hin) as (Hp' & _ & Hc' & _).
    rewrite Hp in Hp'. injection Hp' as <-. rewrite Hc in Hc'.
    injection Hc' as ->. congruence.
  - intros cfg pruned extra Hp Hc Hx Hr He Hne.
    rewrite (tach_check_exact_extra _ _ _ Hp Hc Hx Hr He Hne).
    cbn [fst snd out exit_status].
    split; [reflexivity|]. split; [discriminate|]. split; [reflexivity|].
    exists (extra_constraints_report extra).
    split; [cbn [In]; tauto|]. split; [reflexivity|]. split.
    + intros line Hin. unfold check_call, prune_call in Hin. cbn [In] in Hin.
      repeat (destruct Hin as [Hin|Hin]; [try discriminate Hin|]);
        [now injection Hin as <-|contradiction].
    + intros constraint Hin. now apply constraints_named.
Qed.




End CheckCommand.

(** ** Arguments and configuration *)

Section Arguments.
Context {C : Collaborators}.

(** Once the configuration is loaded, the validator is called with the
    merged exclude list. *)
Lemma check_is_called exact exclude_paths project cfg :
  parse_project_config project = Ret cfg ->
  exists rest,
    out (snd (run (tach_check exact exclude_paths) project))
    = CallParseProjectConfig :: check_call exclude_paths cfg :: rest.
Proof.
  intros Hp. run_check. rewrite Hp. step.
  destruct (check project cfg _ _) as [errors|e|c]; step.
  2,3: finish_run; eexists; reflexivity.
  destruct errors as [|error errors]; step.
  2: { finish_run. rewrite print_each_run.
       destruct (report_outcome _) as [[]| |]; step; eexists; reflexivity. }
  destruct (effective_exact exact cfg); step.
  2: finish_run; eexists; reflexivity.
  destruct (prune_dependency_constraints project cfg _) as [pruned|e|c]; step.
  all: try destruct (find_extra_constraints pruned cfg) as [[|rule extra]|e|c]; step.
  all: finish_run; eexists; reflexivity.
Qed.


(** What [main] does with a first argument that is no set-up command:
    the arguments are parsed, the configuration path is validated, and
    only then the command is carried out. *)
Lemma main_after_validation first rest project :
  str_in_list first setup_commands = false ->
  match parse_args_nonempty (first :: rest) with
  | Ret args =>
      match validate_project_config_path project with
      | Ret _ =>
          exists new,
            out (snd (run (main (first :: rest)) project))
            = CallValidateProjectConfigPath :: new
      | Raise e =>
          run (main (first :: rest)) project
          = (Raise e, {| fs := project; out := [CallValidateProjectConfigPath] |})
      | Exit c =>
          run (main (first :: rest)) project
          = (Exit c, {| fs := project; out := [CallValidateProjectConfigPath] |})
      end
  | Raise e => run (main (first :: rest)) project = (Raise e, initial project)
  | Exit c => run (main (first :: rest)) project = (Exit c, initial project)
  end.
Proof.
  intros Hns. unfold run, main, bind.
  rewrite (parse_arguments_validated _ _ _ Hns).
  destruct (parse_args_nonempty (first :: rest)) as [args|e|c]; try reflexivity.
  cbn [initial fs out app].
  destruct (validate_project_config_path project) as [[]|e|c]; try reflexivity.
  rewrite main_dispatch_framed. cbn [snd out fs app]. now eexists.
Qed.

(** C8: an exception while the configuration is loaded is printed once
    and ends the process with status 1, before the validator is called
    or any boundary error is printed; for a command other than [init],
    [add], [clean] and [sync] the configuration path is validated before
    anything else happens, and nothing happens after a validation that
    does not return. *)
Theorem C8_configuration_errors_are_fatal :
  (forall exact exclude_paths project e,
      parse_project_config project = Raise e ->
      run (tach_check exact exclude_paths) project
      = (Exit 1,
         {| fs := project;
            out := [CallParseProjectConfig; StopSpinner; Stdout (exn_str e)] |})
      /\ existsb is_stderr (out (snd (run (tach_check exact exclude_paths) project)))
         = false)
  /\ (forall first rest project,
      str_in_list first setup_commands = false ->
      let result := run (main (first :: rest)) project in
      let trace := out (snd result) in
      (trace = [] \/ exists rest', trace = CallValidateProjectConfigPath :: rest')
      /\ (forall pre e post,
            trace = (pre ++ e :: post)%list -> is_scan e = true ->
            In CallValidateProjectConfigPath pre)
      /\ (validate_project_config_path project <> Ret tt ->
          (trace = [] \/ trace = [CallValidateProjectConfigPath])
          /\ fst result <> Ret tt)
      /\ (forall args e,
            parse_args_nonempty (first :: rest) = Ret args ->
            validate_project_config_path project = Raise e ->
            result = (Raise e, {| fs := project;
                                  out := [CallValidateProjectConfigPath] |})
            /\ exit_status (fst result) = 1%Z)).
Proof.
  split.
  { intros exact exclude_paths project e He.
    rewrite (tach_check_config_error exact exclude_paths project He).
    now split. }
  intros first rest project Hns result trace.
  pose proof (main_after_validation first rest project Hns) as Hrun.
  fold result in Hrun. subst trace.
  destruct (parse_args_nonempty (first :: rest)) as [args|e|c].
  2,3: rewrite Hrun; cbn; repeat split;
       try (now left); try discriminate;
       intros pre ev post Ht; now destruct pre.
  assert (forall pre ev post rest',
             (CallValidateProjectConfigPath :: rest' = pre ++ ev :: post)%list ->
             is_scan ev = true -> In CallValidateProjectConfigPath pre) as Hscan.
  { intros [|p pre] ev post rest' Ht Hs; injection Ht as <- _;
      [discriminate Hs|now left]. }
  destruct (validate_project_config_path project) as [[]|e|c].
  - destruct Hrun as [new Hnew]. rewrite Hnew.
    split; [right; now eexists|]. split; [intros pre ev post; apply Hscan|].
    split; [congruence|]. intros ? ? _ Hv. discriminate Hv.
  - rewrite Hrun. cbn [fst snd out].
    split; [right; now eexists|]. split; [intros pre ev post; apply Hscan|].
    split; [intros _; split; [now right|discriminate]|].
    intros ? e' _ Hv. injection Hv as <-. now split.
  - rewrite Hrun. cbn [fst snd out].
    split; [right; now eexists|]. split; [intros pre ev post; apply Hscan|].
    split; [intros _; split; [now right|discriminate]|].
    intros ? e' _ Hv. discriminate Hv.
Qed.

(** A command-line exclude list is used only together with a configured
    one: when the configuration has no exclude list, the validator is
    called without any. *)
Theorem command_line_exclude_needs_configured_list
    (exact : bool) (cli : list string) (project : FS) (cfg : ProjectConfig.t) :
  parse_project_config project = Ret cfg ->
  ProjectConfig.exclude cfg = None ->
  merge_exclude (Some cli) cfg = None
  /\ exists rest,
       out (snd (run (tach_check exact (Some cli)) project))
       = CallParseProjectConfig
           :: CallCheck cfg None (ProjectConfig.exclude_hidden_paths cfg) :: rest.
Proof.
  intros Hp Hx.
  assert (merge_exclude (Some cli) cfg = None) as Hm
    by (unfold merge_exclude; now rewrite Hx).
  split; [exact Hm|].
  destruct (check_is_called exact (Some cli) project Hp) as [rest Hr].
  exists rest. rewrite Hr. unfold check_call. now rewrite Hm.
Qed.

End Arguments.

Section FirstArgument.
Context {C : Collaborators}.

(** C9: on the empty argument list [parse_arguments] raises [IndexError]
    (no help is printed, and the process ends with status 1 and nothing
    done); with [init], [add], [clean] or [sync] as first argument the
    configuration path is not validated. *)
Theorem C9_first_argument_is_indexed :
  (forall project,
      run (parse_arguments []) project = (Raise index_error, initial project))
  /\ (forall project,
      run (main []) project = (Raise index_error, initial project)
      /\ exit_status (fst (run (main []) project)) = 1%Z
      /\ ~ In PrintHelp (out (snd (run (main []) project))))
  /\ (forall first rest project,
      In first ["init"; "add"; "clean"; "sync"] ->
      run (parse_arguments (first :: rest)) project
      = (parse_args_nonempty (first :: rest), initial project)
      /\ ~ In CallValidateProjectConfigPath
             (out (snd (run (parse_arguments (first :: rest)) project)))).
Proof.
  split; [|split].
  - intros project. apply parse_arguments_nil.
  - intros project. unfold run, main, bind. rewrite parse_arguments_nil.
    cbn. repeat split. tauto.
  - intros first rest project Hin. apply str_in_list_In in Hin.
    unfold run. rewrite (parse_arguments_setup _ _ _ Hin). cbn. split; [reflexivity|tauto].
Qed.

End FirstArgument.

(** ** The [clean] command *)

Section CleanCommand.
Context {C : Collaborators}.

(** The root cannot be found: nothing is asked and nothing deleted. *)
Lemma tach_clean_no_root force project :
  (forall found, find_project_config_root project <> Ret found) ->
  fs (snd (run (tach_clean force) project)) = project
  /\ out (snd (run (tach_clean force) project))
     = [clean_warning; CallFindProjectConfigRoot].
Proof.
  intros H. run_clean.
  destruct (find_project_config_root project) as [found|e|c];
    [now destruct (H found)|now split..].
Qed.

(** With [force], the configuration is deleted and nothing is asked. *)
Lemma tach_clean_forced project found :
  find_project_config_root project = Ret found ->
  run (tach_clean true) project
  = (fst (clean_project (clean_root found) project),
     {| fs := snd (clean_project (clean_root found) project);
        out := [clean_warning; CallFindProjectConfigRoot;
                clean_root_notice (clean_root found);
                CallCleanProject (clean_root found)] |}).
Proof.
  intros H. run_clean. rewrite H. cbn [fs out fst snd app].
  now destruct (clean_project _ project).
Qed.

(** The user confirms: the configuration is deleted. *)
Lemma tach_clean_confirmed project found response :
  find_project_config_root project = Ret found ->
  input confirm_prompt = Ret response ->
  str_in_list (lower response) ["y"; "yes"] = true ->
  run (tach_clean false) project
  = (fst (clean_project (clean_root found) project),
     {| fs := snd (clean_project (clean_root found) project);
        out := [clean_warning; CallFindProjectConfigRoot;
                clean_root_notice (clean_root found);
                CallInput confirm_prompt;
                CallCleanProject (clean_root found)] |}).
Proof.
  intros Hf Hi Hy. run_clean. rewrite Hf. cbn [fs out fst snd app].
  rewrite Hi. cbn [fs out fst snd app]. rewrite Hy. cbn [fs out fst snd app].
  now destruct (clean_project _ project).
Qed.

(** Any other answer: nothing is deleted. *)
Lemma tach_clean_declined project found response :
  find_project_config_root project = Ret found ->
  input confirm_prompt = Ret response ->
  str_in_list (lower response) ["y"; "yes"] = false ->
  run (tach_clean false) project
  = (Ret tt,
     {| fs := project;
        out := [clean_warning; CallFindProjectConfigRoot;
                clean_root_notice (clean_root found);
                CallInput confirm_prompt; not_deleting] |}).
Proof.
  intros Hf Hi Hy. run_clean. rewrite Hf. cbn [fs out fst snd app].
  rewrite Hi. cbn [fs out fst snd app]. now rewrite Hy.
Qed.

(** No answer at all (end of input): nothing is deleted. *)
Lemma tach_clean_no_answer project found :
  find_project_config_root project = Ret found ->
  (forall response, input confirm_prompt <> Ret response) ->
  fs (snd (run (tach_clean false) project)) = project
  /\ out (snd (run (tach_clean false) project))
     = [clean_warning; CallFindProjectConfigRoot;
        clean_root_notice (clean_root found); CallInput confirm_prompt].
Proof.
  intros Hf Hi. run_clean. rewrite Hf. cbn [fs out fst snd app].
  destruct (input _) as [response|e|c]; [now destruct (Hi response)|now split..].
Qed.

Lemma confirmation_words (response : string) :
  str_in_list (lower response) ["y"; "yes"] = true
  <-> lower response = "y" \/ lower response = "yes".
Proof. rewrite str_in_list_In. cbn. intuition congruence. Qed.

(** C10: without [force], [clean_project] is called exactly when the
    answer, lowercased, is "y" or "yes"; after any other answer (the
    empty one too) and when there is no answer it is not called and the
    project is as it was; with [force] nothing is asked and the
    configuration is deleted. *)
Theorem C10_clean_needs_confirmation (project : FS) :
  (forall root,
      In (CallCleanProject root) (out (snd (run (tach_clean false) project))) ->
      exists found response,
        find_project_config_root project = Ret found /\
        root = clean_root found /\
        input confirm_prompt = Ret response /\
        (lower response = "y" \/ lower response = "yes"))
  /\ (forall found response,
      find_project_config_root project = Ret found ->
      input confirm_prompt = Ret response ->
      lower response = "y" \/ lower response = "yes" ->
      In (CallCleanProject (clean_root found))
         (out (snd (run (tach_clean false) project)))
      /\ fs (snd (run (tach_clean false) project))
         = snd (clean_project (clean_root found) project))
  /\ ((forall response,
         input confirm_prompt = Ret response ->
         lower response <> "y" /\ lower response <> "yes") ->
      fs (snd (run (tach_clean false) project)) = project
      /\ existsb is_clean_call (out (snd (run (tach_clean false) project))) = false)
  /\ (input confirm_prompt = Ret "" ->
      fs (snd (run (tach_clean false) project)) = project
      /\ existsb is_clean_call (out (snd (run (tach_clean false) project))) = false)
  /\ (existsb is_input_call (out (snd (run (tach_clean true) project))) = false
      /\ forall found,
          find_project_config_root project = Ret found ->
          In (CallCleanProject (clean_root found))
             (out (snd (run (tach_clean true) project)))
          /\ fs (snd (run (tach_clean true) project))
             = snd (clean_project (clean_root found) project)).
Proof.
  assert ((forall response,
              input confirm_prompt = Ret response ->
              lower response <> "y" /\ lower response <> "yes") ->
          fs (snd (run (tach_clean false) project)) = project
          /\ existsb is_clean_call (out (snd (run (tach_clean false) project))) = false)
    as Hdeclined.
  { intros Hno.
    destruct (find_project_config_root project) as [found|e|c] eqn:Hf.
    2,3: destruct (tach_clean_no_root false project) as [-> ->];
         [intros found; rewrite Hf; discriminate|now split].
    destruct (input confirm_prompt) as [response|e|c] eqn:Hi.
    2,3: destruct (tach_clean_no_answer project Hf) as [-> ->];
         [intros response; rewrite Hi; discriminate|now split].
    rewrite (tach_clean_declined project Hf Hi); [now split|].
    destruct (str_in_list _ _) eqn:E; [|reflexivity].
    apply confirmation_words in E. destruct (Hno response eq_refl). tauto. }
  split; [|split; [|split; [|split]]].
  - intros root Hin.
    destruct (find_project_config_root project) as [found|e|c] eqn:Hf.
    2,3: destruct (tach_clean_no_root false project) as [_ Ht];
         [intros found; rewrite Hf; discriminate|];
         rewrite Ht in Hin; unfold clean_warning in Hin; in_cases Hin.
    destruct (input confirm_prompt) as [response|e|c] eqn:Hi.
    2,3: destruct (tach_clean_no_answer project Hf) as [_ Ht];
         [intros response; rewrite Hi; discriminate|];
         rewrite Ht in Hin; unfold clean_warning, clean_root_notice in Hin;
         in_cases Hin.
    destruct (str_in_list (lower response) ["y"; "yes"]) eqn:Hy.
    + rewrite (tach_clean_confirmed project Hf Hi Hy) in Hin.
      cbn [snd out] in Hin. unfold clean_warning, clean_root_notice in Hin.
      cbn [In] in Hin.
      destruct Hin as [H|[H|[H|[H|[H|[]]]]]]; try discriminate H.
      injection H as <-. exists found, response.
      repeat split; try assumption. now apply confirmation_words.
    + rewrite (tach_clean_declined project Hf Hi Hy) in Hin.
      unfold clean_warning, clean_root_notice, not_deleting in Hin.
      in_cases Hin.
  - intros found response Hf Hi Hy. apply confirmation_words in Hy.
    rewrite (tach_clean_confirmed project Hf Hi Hy). cbn [snd out fs].
    split; [|reflexivity]. do 4 right. now left.
  - exact Hdeclined.
  - intros Hi. apply Hdeclined. intros response Hr.
    rewrite Hi in Hr. injection Hr as <-. cbn. split; discriminate.
  - split.
    + destruct (find_project_config_root project) as [found|e|c] eqn:Hf.
      * now rewrite (tach_clean_forced project Hf).
      * destruct (tach_clean_no_root true project) as [_ ->];
          [intros found; rewrite Hf; discriminate|reflexivity].
      * destruct (tach_clean_no_root true project) as [_ ->];
          [intros found; rewrite Hf; discriminate|reflexivity].
    + intros found Hf. rewrite (tach_clean_forced project Hf). cbn [snd out fs].
      split; [|reflexivity]. do 3 right. now left.
Qed.

End CleanCommand.

(** ** The error report *)

Section Report.
Context {C : Collaborators}.

(** The link shows the file path in every terminal. *)
Lemma link_contains_path (path : string) (line : option Z) :
  contains (create_clickable_link path line) path.
Proof.
  unfold create_clickable_link.
  set (link := match detect_environment with UNKNOWN => _ | _ => _ end).
  rewrite <- !append_assoc'. rewrite !append_assoc'.
  do 5 apply contains_append_r. apply contains_append_l.
  destruct line as [n|]; [|apply contains_refl].
  destruct (truthy_line _ && _); [apply contains_append_l|]; apply contains_refl.
Qed.

(** In a JetBrains or VS Code terminal it has the line number. *)
Lemma link_contains_line (path : string) (n : Z) :
  detect_environment <> UNKNOWN ->
  contains (create_clickable_link path (Some n)) (str_int n).
Proof.
  unfold create_clickable_link. intros Henv.
  do 2 apply contains_append_r. apply contains_append_l.
  destruct detect_environment; [congruence| |];
    do 3 apply contains_append_r; apply contains_refl.
Qed.

(** In a generic terminal it is the same at every line. *)
Lemma link_without_line (path : string) (n n' : Z) :
  detect_environment = UNKNOWN ->
  create_clickable_link path (Some n) = create_clickable_link path (Some n').
Proof.
  unfold create_clickable_link. intros ->. cbn [is_unknown negb].
  now rewrite !andb_false_r.
Qed.

Lemma error_line_contains_location (error : BoundaryError) (message : string) :
  contains (error_line error message) (file_path error).
Proof.
  unfold error_line. do 2 apply contains_append_r. apply contains_append_l.
  apply link_contains_path.
Qed.

Lemma error_line_contains_message (error : BoundaryError) (message : string) :
  contains (error_line error message) message.
Proof.
  unfold error_line. do 6 apply contains_append_r. apply contains_append_l.
  apply contains_refl.
Qed.


(** C4 (amended): the message of an error whose template has no stray
    brace has the file path; an exception message, when there is one, is
    the message shown, whatever the tags; a tag error without exception
    message shows the imported module path, the source tags and the
    invalid tags; an error that is neither shows "Unexpected error".  The
    line number is in the message in a JetBrains or VS Code terminal; in
    a generic terminal the message is the same at every line. *)
Theorem C4_error_message_contents (error : BoundaryError) :
  plain_template error = true ->
  let info := error_info error in
  exists line,
    build_error_message error = inr line
    /\ contains line (file_path error)
    /\ (exception_message info <> "" ->
        line = error_line error (exception_message info)
        /\ contains line (exception_message info))
    /\ (exception_message info = "" -> is_tag_error info = false ->
        line = error_line error "Unexpected error")
    /\ (exception_message info = "" -> is_tag_error info = true ->
        contains line (import_mod_path error)
        /\ contains line (str_list isprintable (source_tags info))
        /\ contains line (str_list isprintable (invalid_tags info)))
    /\ (detect_environment <> UNKNOWN ->
        contains line (str_int (line_number error)))
    /\ (detect_environment = UNKNOWN ->
        forall n, build_error_message (at_line error n) = inr line).
Proof.
  intros Hplain info. exists (error_line error (shown_message error)).
  split; [now apply build_error_message_plain|].
  split; [apply error_line_contains_location|].
  unfold shown_message. fold info.
  split; [|split; [|split; [|split]]].
  - intros Hne. destruct (exception_message info) eqn:E; [congruence|].
    cbn [truthy]. split; [reflexivity|apply error_line_contains_message].
  - intros -> Hf. cbn [truthy]. now rewrite Hf.
  - intros -> Ht. cbn [truthy]. rewrite Ht. cbn [negb].
    repeat split;
      (eapply contains_trans; [apply error_line_contains_message|]);
      unfold tag_message; fold info.
    + apply contains_inner.
    + do 4 apply contains_append_r. apply contains_append_l, contains_refl.
    + do 6 apply contains_append_r. apply contains_append_l, contains_refl.
  - intros Henv. unfold error_line. do 2 apply contains_append_r.
    apply contains_append_l. now apply link_contains_line.
  - intros Henv n.
    rewrite (build_error_message_plain (at_line error n)) by exact Hplain.
    unfold error_line, shown_message, tag_message. cbn [at_line file_path
      line_number import_mod_path error_info].
    now rewrite (link_without_line _ n (line_number error) Henv).
Qed.

Lemma format_lone_closing_brace f (m a b : string) :
  no_brace a = true -> String.prefix "}" b = false ->
  format_from f m 0 (a ++ "}" ++ b) = inl (single_brace "}").
Proof.
  intros Ha Hb. induction a as [|c a IH].
  - cbn. destruct b as [|c' b]; [reflexivity|].
    cbn in Hb. destruct (Ascii.eqb c' "}") eqn:E; [|reflexivity].
    apply Ascii.eqb_eq in E. subst c'.
    destruct (ascii_dec "}" "}") as [_|Hne]; [|congruence].
    now rewrite prefix_empty in Hb.
  - cbn [no_brace] in Ha. apply andb_prop in Ha as [H Hs].
    apply andb_prop in H as [H1 H2]. apply negb_true_iff in H1, H2.
    specialize (IH Hs). cbn [append] in IH |- *. cbn [format_from].
    rewrite H1, H2, IH. reflexivity.
Qed.

Lemma prefix_append_single (p a b : string) :
  String.length p = 1 -> String.prefix p a = false ->
  (a = "" -> String.prefix p b = false) ->
  String.prefix p (a ++ b) = false.
Proof.
  destruct p as [|x [|y p]]; try discriminate. intros _ Hp Hb.
  destruct a as [|c a]; [now apply Hb|]. cbn in Hp |- *.
  destruct (ascii_dec x c); [|reflexivity].
  now rewrite prefix_empty in Hp.
Qed.

(** A file whose absolute path has a closing brace on its own as its
    first brace (anywhere, also at its end): the template is handed to
    [str.format] with the path already in it, and [build_error_message]
    raises [ValueError].  [print_errors] then leaves on an exception for
    every list with that error in it, and what it has written are lines
    of other errors; a check whose validator reports the error ends on
    the exception, with status 1 and fewer lines on stderr than errors. *)
Theorem lone_closing_brace_in_path_raises (error : BoundaryError) (pre post : string) :
  no_brace (FAIL BCOLORS) = true ->
  abspath (file_path error) = pre ++ "}" ++ post ->
  no_brace pre = true ->
  String.prefix "}" post = false ->
  build_error_message error = inl (single_brace "}")
  /\ (forall error_list (s : State),
        In error error_list ->
        (exists e, fst (print_errors error_list s) = Raise e)
        /\ forall line,
             In (Stderr line) (out (snd (print_errors error_list s))) ->
             In (Stderr line) (out s)
             \/ exists other,
                  In other error_list /\ other <> error
                  /\ build_error_message other = inr line)
  /\ (forall exact exclude_paths project cfg error_list,
        parse_project_config project = Ret cfg ->
        validator project exclude_paths cfg = Ret error_list ->
        In error error_list ->
        let result := run (tach_check exact exclude_paths) project in
        (exists e, fst result = Raise e)
        /\ exit_status (fst result) = 1%Z
        /\ out (snd result)
           = ([CallParseProjectConfig; check_call exclude_paths cfg; StopSpinner]
              ++ map Stderr (report_lines (sorted file_path error_list)))%list
        /\ (length (report_lines (sorted file_path error_list))
            < length error_list)%nat).
Proof.
  intros Hfail Hpath Hpre Hpost.
  assert (build_error_message error = inl (single_brace "}")) as Hbuild.
  { assert (forall m, format_message format_other_field (error_template error) m
                      = inl (single_brace "}")) as Hf.
    { intros m. unfold format_message, error_template, create_clickable_link.
      set (display := if _ && _ then _ else _).
      assert (exists scheme tail,
                 no_brace scheme = true /\
                 (forall rest, String.prefix "}" (tail ++ ESC ++ rest) = false) /\
                 match detect_environment with
                 | UNKNOWN => "file://" ++ abspath (file_path error)
                 | JETBRAINS =>
                     "file://" ++ abspath (file_path error) ++ ":"
                       ++ str_int (line_number error)
                 | VSCODE =>
                     "vscode://file/" ++ abspath (file_path error) ++ ":"
                       ++ str_int (line_number error)
                 end = scheme ++ pre ++ "}" ++ post ++ tail)
        as (scheme & tail & Hscheme & Htail & ->).
      { rewrite Hpath. destruct detect_environment.
        - exists "file://", "". split; [reflexivity|]. split; [reflexivity|].
          now rewrite ?append_assoc', append_empty_r.
        - exists "file://", (":" ++ str_int (line_number error)).
          split; [reflexivity|]. split; [reflexivity|]. now rewrite ?append_assoc'.
        - exists "vscode://file/", (":" ++ str_int (line_number error)).
          split; [reflexivity|]. split; [reflexivity|]. now rewrite ?append_assoc'. }
      match goal with
      | |- format_from _ _ _ ?t = _ =>
          replace t with
            (("❌ " ++ FAIL BCOLORS ++ ESC ++ "]8;;" ++ scheme ++ pre)
               ++ "}" ++ (post ++ tail ++ ESC ++ BACKSLASH ++ display
                            ++ ESC ++ "]8;;" ++ ESC ++ BACKSLASH
                            ++ ENDC BCOLORS ++ WARNING BCOLORS ++ ": {message} "
                            ++ ENDC BCOLORS))
            by (rewrite !append_assoc'; reflexivity)
      end.
      apply format_lone_closing_brace.
      - repeat (rewrite no_brace_append; apply andb_true_intro; split); auto.
      - apply prefix_append_single; [reflexivity|exact Hpost|].
        intros _. apply Htail. }
    unfold build_error_message.
    destruct (truthy _); [apply Hf|]. destruct (negb _); apply Hf. }
  split; [exact Hbuild|]. split.
  - intros error_list s Hin. unfold print_errors. rewrite print_each_run.
    cbn [fst snd out].
    assert (In error (sorted file_path error_list)) as Hs
      by (eapply Permutation_in; [apply Permutation_sym, sorted_perm|exact Hin]).
    split; [exact (report_raises _ _ Hs Hbuild)|].
    intros line Hl. apply in_app_or in Hl as [Hl|Hl]; [now left|right].
    apply in_map_iff in Hl as (l & El & Hl). injection El as ->.
    destruct (report_lines_built _ _ Hl) as (other & Ho & Hb).
    exists other. split; [|split; [|exact Hb]].
    + eapply Permutation_in; [apply sorted_perm|exact Ho].
    + intros ->. congruence.
  - intros exact exclude_paths project cfg error_list Hp Hc Hin result.
    subst result.
    assert (error_list <> []) as Hne by (intros ->; contradiction).
    rewrite (tach_check_violations _ _ _ Hp Hc Hne). cbn [fst snd out].
    assert (In error (sorted file_path error_list)) as Hs
      by (eapply Permutation_in; [apply Permutation_sym, sorted_perm|exact Hin]).
    destruct (report_raises _ _ Hs Hbuild) as (e & He).
    unfold after_report. rewrite He. cbn [exit_status].
    split; [now exists e|]. split; [reflexivity|]. split; [reflexivity|].
    rewrite <- (Permutation_length (sorted_perm file_path error_list)).
    destruct (report_lines_length (sorted file_path error_list))
      as [[Ho _]|(e' & _ & Hl)]; [congruence|exact Hl].
Qed.

End Report.

(** ** Runs on the project in memory *)

Example split_example :
  split "," "tests/,ci/,,docs" = ["tests/"; "ci/"; ""; "docs"].
Proof. reflexivity. Qed.

Example str_list_example :
  str_list Example.unicode_printable ["low"; "it's"] = "['low', " ++ DQUOTE ++ "it's" ++ DQUOTE ++ "]".
Proof. reflexivity. Qed.

(** [repr] escapes the characters that are not printable, the no-break
    space U+00A0 and the zero width space U+200B among them, and keeps a
    printable letter outside ASCII. *)
Example repr_example :
  repr Example.unicode_printable ("a" ++ chr 194 ++ chr 160 ++ "b") = "'a\xa0b'"
  /\ repr Example.unicode_printable ("a" ++ chr 226 ++ chr 128 ++ chr 139 ++ "b")
     = "'a\u200bb'"
  /\ repr Example.unicode_printable ("caf" ++ chr 195 ++ chr 169)
     = "'caf" ++ chr 195 ++ chr 169 ++ "'"
  /\ repr Example.unicode_printable ("it's" ++ NEWLINE ++ chr 127)
     = DQUOTE ++ "it's\n\x7f" ++ DQUOTE.
Proof. repeat split. Qed.

(** The message of a tag error whose tag has a no-break space. *)
Example escaped_tag_in_message :
  @tag_message Example.clean
    {| file_path := "core/b.py";
       line_number := 7;
       import_mod_path := "api.views";
       error_info := {| exception_message := "";
                        is_tag_error := true;
                        source_tags := ["a" ++ chr 194 ++ chr 160 ++ "b"];
                        invalid_tags := ["high"] |} |}
  = "Cannot import 'api.views'. Tags ['a\xa0b'] cannot depend on ['high'].".
Proof. reflexivity. Qed.

Example format_example :
  format_message (fun _ _ => inl (mkExn "KeyError" "")) "a{{b}}: {message} c" "hi"
  = inr "a{b}: hi c".
Proof. reflexivity. Qed.

Example sorted_example :
  map file_path
    (sorted file_path
       [Example.tag_error "core/b.py" 7; Example.parse_failure "core/a.py";
        Example.tag_error "core/a.py" 3])
  = ["core/a.py"; "core/a.py"; "core/b.py"]
  /\ map line_number
       (sorted file_path
          [Example.tag_error "core/b.py" 7; Example.parse_failure "core/a.py";
           Example.tag_error "core/a.py" 3])
     = [1%Z; 3%Z; 7%Z].
Proof. split; reflexivity. Qed.

(** The path [a}.py]: [str.format] raises, nothing is written for the
    error, and the check ends on the exception. *)
Example stray_brace_in_file_path :
  @build_error_message Example.braced (Example.parse_failure "a}.py")
  = inl (single_brace "}")
  /\ @run Example.braced unit (@tach_check Example.braced false None)
       (Some (Example.config false None))
     = (Raise (single_brace "}"),
        @Build_State Example.braced (Some (Example.config false None))
          [CallParseProjectConfig;
           CallCheck (Example.config false None) None true;
           StopSpinner])
  /\ exit_status (fst (@run Example.braced unit
                         (@tach_check Example.braced false None)
                         (Some (Example.config false None)))) = 1%Z.
Proof. repeat split. Qed.

(** An exact check of a project with an unused rule fails, and the
    report names the rule. *)
Lemma C1_exact_check_reports_unused_rule :
  fst (@run Example.over_permissive unit
         (@tach_check Example.over_permissive false None)
         (Some (Example.config true None)))
  = Exit 1
  /\ exists text,
       In (Stdout text)
          (out (snd (@run Example.over_permissive unit
                       (@tach_check Example.over_permissive false None)
                       (Some (Example.config true None)))))
       /\ contains text "low"
       /\ contains text "['high']".
Proof.
  pose proof (@C1_prune_only_without_violations Example.over_permissive
                false None (Some (Example.config true None))) as H.
  cbv zeta in H. destruct H as (_ & _ & H).
  destruct (H (Example.config true None) (Example.config true None)
              [Example.unused_rule] eq_refl eq_refl eq_refl eq_refl eq_refl)
    as (Hexit & _ & _ & text & Hin & _ & _ & Hnames); [discriminate|].
  split; [exact Hexit|]. exists text. split; [exact Hin|].
  exact (Hnames Example.unused_rule (or_introl eq_refl)).
Defined.





(** C4, as stated, fails in a generic terminal: the message of a tag
    error at line 7 does not have the line number. *)
Lemma C4_generic_terminal_leaves_line_out :
  @build_error_message Example.clean (Example.tag_error "core/b.py" 7)
  = inr Example.generic_line
  /\ is_tag_error (error_info (Example.tag_error "core/b.py" 7)) = true
  /\ ~ contains Example.generic_line (str_int (line_number (Example.tag_error "core/b.py" 7))).
Proof.
  split; [reflexivity|]. split; [reflexivity|].
  apply not_contains. vm_compute. reflexivity.
Qed.

(** In a VS Code terminal the line number is there. *)
Lemma C4_vscode_shows_line :
  @plain_template Example.in_vscode (Example.tag_error "core/b.py" 7) = true
  /\ exists line,
       @build_error_message Example.in_vscode (Example.tag_error "core/b.py" 7)
       = inr line
       /\ contains line "core/b.py"
       /\ contains line "api.views"
       /\ contains line "7".
Proof.
  split; [reflexivity|].
  destruct (@C4_error_message_contents Example.in_vscode
              (Example.tag_error "core/b.py" 7) eq_refl)
    as (line & Hb & Hp & _ & _ & Ht & Hl & _).
  exists line. split; [exact Hb|]. split; [exact Hp|].
  split; [apply Ht; reflexivity|]. apply Hl. discriminate.
Defined.




(** A project without configuration: [check] stops at the validation. *)
Lemma C8_check_without_configuration :
  out (snd (@run Example.clean unit (@main Example.clean ["check"]) None)) = []
  \/ out (snd (@run Example.clean unit (@main Example.clean ["check"]) None))
     = [CallValidateProjectConfigPath].
Proof.
  destruct (@C8_configuration_errors_are_fatal Example.clean) as (_ & H).
  specialize (H "check" [] None eq_refl). cbv zeta in H.
  destruct H as (_ & _ & H & _). apply H. discriminate.
Defined.

(** [clean] does not validate the configuration path. *)
Lemma C9_clean_is_not_validated :
  ~ In CallValidateProjectConfigPath
       (out (snd (@run Example.clean Namespace.t
                    (@parse_arguments Example.clean ["clean"; "--force"]) None))).
Proof.
  destruct (@C9_first_argument_is_indexed Example.clean) as (_ & _ & H).
  apply (H "clean" ["--force"] None). cbn. tauto.
Defined.

(** The answer "Yes" deletes the configuration. *)
Lemma C10_yes_deletes :
  In (CallCleanProject ".")
     (out (snd (@run (Example.answering "Yes") unit
                  (@tach_clean (Example.answering "Yes") false)
                  (Some (Example.config false None)))))
  /\ fs (snd (@run (Example.answering "Yes") unit
                (@tach_clean (Example.answering "Yes") false)
                (Some (Example.config false None)))) = None.
Proof.
  destruct (@C10_clean_needs_confirmation (Example.answering "Yes")
              (Some (Example.config false None))) as (_ & H & _).
  apply (H (Some ".") "Yes"); try reflexivity. right. reflexivity.
Defined.

(** [check -e tests/] on a project without configured exclude list. *)
Lemma command_line_exclude_dropped :
  exists rest,
    out (snd (@run Example.clean unit
                (@tach_check Example.clean false (Some ["tests/"]))
                (Some (Example.config false None))))
    = CallParseProjectConfig
        :: CallCheck (Example.config false None) None true :: rest.
Proof.
  apply (@command_line_exclude_needs_configured_list Example.clean false
           ["tests/"] (Some (Example.config false None))
           (Example.config false None) eq_refl eq_refl).
Defined.

(** The path [a}.py] in the project in memory: the message cannot be
    built and the check ends on the exception, nothing written. *)
Lemma closing_brace_raises_in_example :
  @build_error_message Example.braced (Example.parse_failure "a}.py")
  = inl (single_brace "}")
  /\ exit_status
       (fst (@run Example.braced unit (@tach_check Example.braced false None)
               (Some (Example.config false None)))) = 1%Z
  /\ out (snd (@run Example.braced unit (@tach_check Example.braced false None)
                 (Some (Example.config false None))))
     = [CallParseProjectConfig; CallCheck (Example.config false None) None true;
        StopSpinner].
Proof.
  destruct (@lone_closing_brace_in_path_raises Example.braced
              (Example.parse_failure "a}.py") "/project/a" ".py"
              eq_refl eq_refl eq_refl eq_refl) as (Hbuild & _ & Hcheck).
  split; [exact Hbuild|].
  destruct (Hcheck false None (Some (Example.config false None))
              (Example.config false None) [Example.parse_failure "a}.py"]
              eq_refl eq_refl (or_introl eq_refl)) as (_ & Hstatus & Htrace & _).
  split; [exact Hstatus|]. rewrite Htrace. reflexivity.
Defined.

(** A path that ends with the brace. *)
Example trailing_brace_in_file_path :
  @build_error_message Example.clean (Example.tag_error "src/a}" 3)
  = inl (single_brace "}").
Proof. reflexivity. Qed.

(** The answer "no" leaves it. *)
Example no_keeps_configuration :
  @run (Example.answering "no") unit (@tach_clean (Example.answering "no") false)
    (Some (Example.config false None))
  = (Ret tt,
     @Build_State (Example.answering "no") (Some (Example.config false None))
       [@clean_warning (Example.answering "no"); CallFindProjectConfigRoot;
        @clean_root_notice (Example.answering "no") ".";
        CallInput (@confirm_prompt (Example.answering "no"));
        @not_deleting (Example.answering "no")]).
Proof. reflexivity. Qed.

(** ** More on the report *)

Lemma sorted_of_sorted A (key : A -> string) (l : list A) :
  StronglySorted (key_le key) l -> sorted key l = l.
Proof.
  induction 1 as [|x l Hs IH Hall]; [reflexivity|].
  cbn [sorted]. rewrite IH. destruct l as [|y l]; [reflexivity|].
  cbn [insert_by_key]. inversion Hall as [|? ? Hxy _]; subst.
  unfold key_le, str_le in Hxy. now rewrite Hxy.
Qed.

Lemma lower_append (a b : string) : lower (a ++ b) = lower a ++ lower b.
Proof. induction a as [|c a IH]; cbn; [reflexivity|now rewrite IH]. Qed.

Section ReportEdges.
Context {C : Collaborators}.

Lemma report_lines_app (before after : list BoundaryError) :
  report_outcome before = Ret tt ->
  report_lines (before ++ after)%list
  = (report_lines before ++ report_lines after)%list
  /\ report_outcome (before ++ after)%list = report_outcome after.
Proof.
  induction before as [|e before IH]; cbn; [now split|].
  destruct (build_error_message e); [discriminate|].
  intros H. destruct (IH H) as [-> ->]. now split.
Qed.



(** The report of unused dependencies is one printed text: the heading,
    then a line for every constraint in the order given, with its tag and
    the list of the tags it does not depend on. *)
Theorem extra_constraints_are_all_named
    (constraints : list TagDependencyRules) (s : State) :
  exists text,
    out (snd (print_extra_constraints constraints s))
    = (out s ++ [Stdout text])%list
    /\ text = "❌ " ++ FAIL BCOLORS ++ "Found unused dependencies: " ++ ENDC BCOLORS
                ++ NEWLINE
                ++ join NEWLINE
                     (map (fun constraint =>
                             TAB ++ WARNING BCOLORS ++ tag constraint
                                 ++ " does not depend on: "
                                 ++ str_list isprintable (depends_on constraint)
                                 ++ ENDC BCOLORS)
                          constraints)
    /\ forall constraint,
         In constraint constraints ->
         contains text
           (TAB ++ WARNING BCOLORS ++ tag constraint ++ " does not depend on: "
                ++ str_list isprintable (depends_on constraint) ++ ENDC BCOLORS)
         /\ contains text (tag constraint)
         /\ contains text (str_list isprintable (depends_on constraint)).
Proof.
  exists (extra_constraints_report constraints).
  split; [reflexivity|]. split; [reflexivity|].
  intros constraint Hin. now apply constraints_named.
Qed.

(** The link is a terminal hyperlink around the file path.  Without a
    line, and in a generic terminal, the target is the absolute path and
    the text is the path.  In a JetBrains or VS Code terminal the target
    ends with the line, and the text shows it unless it is 0: line 0 is
    in the target only. *)
Theorem clickable_link_shape (path : string) :
  create_clickable_link path None
  = hyperlink (link_scheme detect_environment ++ abspath path) path
  /\ (detect_environment = UNKNOWN ->
      forall n,
        create_clickable_link path (Some n)
        = hyperlink ("file://" ++ abspath path) path)
  /\ (detect_environment <> UNKNOWN ->
      create_clickable_link path (Some 0%Z)
      = hyperlink (link_scheme detect_environment ++ abspath path ++ ":0") path
      /\ forall n,
           n <> 0%Z ->
           create_clickable_link path (Some n)
           = hyperlink (link_scheme detect_environment ++ abspath path
                          ++ ":" ++ str_int n)
               (path ++ "[L" ++ str_int n ++ "]")).
Proof.
  unfold create_clickable_link, hyperlink, link_scheme. split; [|split].
  - destruct detect_environment; reflexivity.
  - intros -> n. cbn [is_unknown negb]. now rewrite andb_false_r.
  - intros Henv. destruct detect_environment; [congruence| |]; split;
      try reflexivity; intros n Hn; apply Z.eqb_neq in Hn;
      cbn [truthy_line is_unknown negb andb]; now rewrite Hn.
Qed.

(** The terminal is recognised by a word in an environment variable, in
    any mix of upper and lower case; [TERMINAL_EMULATOR] is looked at
    first, so JetBrains wins over VS Code; with neither variable set the
    terminal is generic. *)
Theorem terminal_is_detected_by_word :
  (forall pre word post,
      environ "TERMINAL_EMULATOR" = Some (pre ++ word ++ post) ->
      lower word = "jetbrains" ->
      detect_environment = JETBRAINS)
  /\ (forall pre word post,
      environ "TERMINAL_EMULATOR" = None ->
      environ "TERM_PROGRAM" = Some (pre ++ word ++ post) ->
      lower word = "vscode" ->
      detect_environment = VSCODE)
  /\ (environ "TERMINAL_EMULATOR" = None ->
      environ "TERM_PROGRAM" = None ->
      detect_environment = UNKNOWN).
Proof.
  unfold detect_environment, environ_get. split; [|split].
  - intros pre word post -> Hw.
    replace (str_in "jetbrains" (lower (pre ++ word ++ post))) with true;
      [reflexivity|].
    symmetry. apply str_in_spec. rewrite !lower_append, Hw.
    now exists (lower pre), (lower post).
  - intros pre word post -> -> Hw. cbn [lower].
    replace (str_in "jetbrains" "") with false by reflexivity.
    replace (str_in "vscode" (lower (pre ++ word ++ post))) with true;
      [reflexivity|].
    symmetry. apply str_in_spec. rewrite !lower_append, Hw.
    now exists (lower pre), (lower post).
  - intros -> ->. reflexivity.
Qed.

End ReportEdges.

(** ** Commands that end the process *)

Section Endings.
Context {C : Collaborators}.

Lemma never_returns_sys_exit A (c : Z) : never_returns (sys_exit c : M A).
Proof. intros s a. discriminate. Qed.

Lemma never_returns_bind A B (m : M A) (k : A -> M B) :
  (forall a, never_returns (k a)) -> never_returns (bind m k).
Proof.
  intros Hk s b. unfold bind. destruct (m s) as [[a|e|c] s1]; cbn;
    [apply Hk|discriminate..].
Qed.

Lemma never_returns_if A (b : bool) (m1 m2 : M A) :
  never_returns m1 -> never_returns m2 -> never_returns (if b then m1 else m2).
Proof. now destruct b. Qed.

(** [tach_check], [tach_init], [tach_sync], [tach_add] and [tach_install]
    never return to [main]: every run ends in [sys.exit] or in an
    exception. *)
Theorem commands_never_return :
  (forall exact exclude_paths, never_returns (tach_check exact exclude_paths))
  /\ (forall depth exclude_paths, never_returns (tach_init depth exclude_paths))
  /\ (forall prune exclude_paths, never_returns (tach_sync prune exclude_paths))
  /\ (forall paths tags, never_returns (tach_add paths tags))
  /\ (forall path target, never_returns (tach_install path target)).
Proof.
  repeat split; intros;
    repeat first
      [ apply never_returns_sys_exit
      | apply never_returns_bind; intros ?
      | apply never_returns_if
      | match goal with
        | |- never_returns (let (_, _) := ?x in _) => destruct x
        end ].
Qed.

(** An exception of the validator, of the prune step or of
    [find_extra_constraints] is handled like one of the loader: the
    spinner is stopped, the message is printed once, and the process
    exits with 1, with nothing on stderr. *)
Theorem check_exceptions_are_reported
    (exact : bool) (exclude_paths : option (list string)) (project : FS)
    (cfg : ProjectConfig.t) (e : PyExn) :
  parse_project_config project = Ret cfg ->
  (validator project exclude_paths cfg = Raise e ->
   run (tach_check exact exclude_paths) project
   = (Exit 1,
      {| fs := project;
         out := [CallParseProjectConfig; check_call exclude_paths cfg;
                 StopSpinner; Stdout (exn_str e)] |}))
  /\ (validator project exclude_paths cfg = Ret [] ->
      effective_exact exact cfg = true ->
      pruner project exclude_paths cfg = Raise e ->
      run (tach_check exact exclude_paths) project
      = (Exit 1,
         {| fs := project;
            out := [CallParseProjectConfig; check_call exclude_paths cfg;
                    prune_call exclude_paths cfg;
                    StopSpinner; Stdout (exn_str e)] |}))
  /\ (forall pruned,
      validator project exclude_paths cfg = Ret [] ->
      effective_exact exact cfg = true ->
      pruner project exclude_paths cfg = Ret pruned ->
      find_extra_constraints pruned cfg = Raise e ->
      run (tach_check exact exclude_paths) project
      = (Exit 1,
         {| fs := project;
            out := [CallParseProjectConfig; check_call exclude_paths cfg;
                    prune_call exclude_paths cfg;
                    CallFindExtraConstraints pruned cfg;
                    StopSpinner; Stdout (exn_str e)] |})).
Proof.
  intros Hp. split; [|split].
  - intros Hc. run_check. rewrite Hp, Hc. finish_run. reflexivity.
  - intros Hc Hx Hr. run_check. rewrite Hp, Hc. step. rewrite Hx. step.
    rewrite Hr. finish_run. reflexivity.
  - intros pruned Hc Hx Hr He. run_check. rewrite Hp, Hc. step. rewrite Hx. step.
    rewrite Hr. step. rewrite He. finish_run. reflexivity.
Qed.

Lemma parse_arguments_returns (argv : list string) (project : FS)
    (args : Namespace.t) (s' : State) :
  run (parse_arguments argv) project = (Ret args, s') ->
  parse_args argv = Ret args
  /\ fs s' = project
  /\ (out s' = [] \/ out s' = [CallValidateProjectConfigPath]).
Proof.
  unfold run, parse_arguments, bind, pure, inspect, ret, raise.
  destruct (parse_args argv) as [parsed|e|c]; try discriminate.
  destruct argv as [|first rest]; [discriminate|].
  destruct (negb (str_in_list first setup_commands)); cbn [initial fs out app].
  - destruct (validate_project_config_path project); try discriminate.
    intros H. injection H as <- <-. cbn. auto.
  - intros H. injection H as <- <-. cbn. auto.
Qed.

(** A usage error stops [main] before the configuration path is
    validated; when [parse_arguments] returns, it returns the namespace
    of the parser, with the project as it was and nothing done but the
    validation. *)
Theorem usage_errors_come_first (argv : list string) (project : FS) :
  (forall c,
      parse_args argv = Exit c ->
      run (main argv) project = (Exit c, initial project))
  /\ (forall e,
      parse_args argv = Raise e ->
      run (main argv) project = (Raise e, initial project))
  /\ (forall args (s' : State),
      run (parse_arguments argv) project = (Ret args, s') ->
      parse_args argv = Ret args
      /\ fs s' = project
      /\ (out s' = [] \/ out s' = [CallValidateProjectConfigPath])).
Proof.
  split; [|split].
  - intros c H. unfold run, main, parse_arguments, bind, pure. now rewrite H.
  - intros e H. unfold run, main, parse_arguments, bind, pure. now rewrite H.
  - intros args s'. apply parse_arguments_returns.
Qed.

End Endings.

(** ** The set-up commands *)

Lemma to_set_distinct (l : list string) :
  (1 < length (to_set l))%nat <-> exists a b, In a l /\ In b l /\ a <> b.
Proof.
  unfold to_set. pose proof (NoDup_nodup string_dec l) as Hnd.
  assert (forall x, In x (nodup string_dec l) <-> In x l) as Hin
    by (intros x; apply nodup_In).
  destruct (nodup string_dec l) as [|a [|b rest]]; cbn [length].
  - split; [lia|]. intros (a & _ & Ha & _). now apply Hin in Ha.
  - split; [lia|]. intros (x & y & Hx & Hy & Hne).
    apply Hin in Hx, Hy. destruct Hx as [<-|[]], Hy as [<-|[]]. congruence.
  - split; [|lia]. intros _. exists a, b.
    split; [apply Hin; now left|]. split; [apply Hin; right; now left|].
    intros ->. inversion Hnd as [|? ? Hnot _]; subst. apply Hnot. now left.
Qed.

Section SetUp.
Context {C : Collaborators}.

(** [init]: the warnings, if any, and the success message with exit 0
    when [init_project] returns; its message alone and exit 1 when it
    raises. *)
Lemma tach_init_outcomes
    (depth : option Z) (exclude_paths : option (list string)) (project : FS) :
  (forall warnings project',
      init_project depth exclude_paths project = (Ret warnings, project') ->
      run (tach_init depth exclude_paths) project
      = (Exit 0,
         {| fs := project';
            out := (CallInitProject depth exclude_paths :: warning_lines warnings
                    ++ [Stdout (success ("Initialized '" ++ CONFIG_FILE_NAME
                                           ++ ".yml'"))])%list |}))
  /\ (forall e project',
      init_project depth exclude_paths project = (Raise e, project') ->
      run (tach_init depth exclude_paths) project
      = (Exit 1,
         {| fs := project';
            out := [CallInitProject depth exclude_paths; Stdout (exn_str e)] |})).
Proof.
  unfold run, tach_init, try_except, bind, change, initial, warning_lines.
  cbn [fs out app]. split.
  - intros warnings project' ->. destruct warnings; reflexivity.
  - intros e project' ->. reflexivity.
Qed.

(** [sync]: the success message and exit 0 when [sync_project] returns;
    its message alone and exit 1 when it raises. *)
Lemma tach_sync_outcomes
    (prune : bool) (exclude_paths : option (list string)) (project : FS) :
  (forall project',
      sync_project prune exclude_paths project = (Ret tt, project') ->
      run (tach_sync prune exclude_paths) project
      = (Exit 0,
         {| fs := project';
            out := [CallSyncProject prune exclude_paths;
                    Stdout (success "Synced dependencies.")] |}))
  /\ (forall e project',
      sync_project prune exclude_paths project = (Raise e, project') ->
      run (tach_sync prune exclude_paths) project
      = (Exit 1,
         {| fs := project';
            out := [CallSyncProject prune exclude_paths; Stdout (exn_str e)] |})).
Proof.
  unfold run, tach_sync, try_except, bind, change, initial. cbn [fs out app].
  split; [intros project' ->|intros e project' ->]; reflexivity.
Qed.

(** [init] and [sync] end alike: exit 0 after the success message when
    the collaborator returns ([init] prints its warnings first, and no
    line when there is none), exit 1 after the message of the exception
    alone when it raises; the project is as the collaborator left it. *)
Theorem init_and_sync_outcomes (exclude_paths : option (list string)) (project : FS) :
  (forall depth warnings project',
      init_project depth exclude_paths project = (Ret warnings, project') ->
      run (tach_init depth exclude_paths) project
      = (Exit 0,
         {| fs := project';
            out := (CallInitProject depth exclude_paths :: warning_lines warnings
                    ++ [Stdout (success ("Initialized '" ++ CONFIG_FILE_NAME
                                           ++ ".yml'"))])%list |})
      /\ (warnings = [] -> warning_lines warnings = []))
  /\ (forall depth e project',
      init_project depth exclude_paths project = (Raise e, project') ->
      run (tach_init depth exclude_paths) project
      = (Exit 1,
         {| fs := project';
            out := [CallInitProject depth exclude_paths; Stdout (exn_str e)] |}))
  /\ (forall prune project',
      sync_project prune exclude_paths project = (Ret tt, project') ->
      run (tach_sync prune exclude_paths) project
      = (Exit 0,
         {| fs := project';
            out := [CallSyncProject prune exclude_paths;
                    Stdout (success "Synced dependencies.")] |}))
  /\ (forall prune e project',
      sync_project prune exclude_paths project = (Raise e, project') ->
      run (tach_sync prune exclude_paths) project
      = (Exit 1,
         {| fs := project';
            out := [CallSyncProject prune exclude_paths; Stdout (exn_str e)] |})).
Proof.
  split; [|split; [|split]].
  - intros depth warnings project' H.
    split; [now apply tach_init_outcomes|now intros ->].
  - intros depth e project' H. now apply tach_init_outcomes.
  - intros prune project' H. now apply tach_sync_outcomes.
  - intros prune e project' H. now apply tach_sync_outcomes.
Qed.

(** [add]: the message is in the plural exactly when the comma-separated
    argument names two different paths (a path given twice counts once);
    the spinner is stopped though [main] never starts it for [add]. *)
Theorem tach_add_counts_distinct_paths (args : Namespace.t) (project : FS) :
  command_is args "add" = true ->
  main_dispatch args = tach_add (add_paths args) (add_tags args)
  /\ NoDup (add_paths args)
  /\ (forall p, In p (add_paths args) <-> In p (split "," (Namespace.path args)))
  /\ (forall warnings project',
        add_packages (add_paths args) (add_tags args) project = (Ret warnings, project') ->
        run (main_dispatch args) project
        = (Exit 0,
           {| fs := project';
              out := (CallAddPackages (add_paths args) (add_tags args)
                        :: StopSpinner :: warning_lines warnings
                      ++ [Stdout (success (if (1 <? length (add_paths args))%nat
                                           then "Packages added."
                                           else "Package added."))])%list |}))
  /\ ((1 <? length (add_paths args))%nat = true
      <-> exists a b,
            In a (split "," (Namespace.path args))
            /\ In b (split "," (Namespace.path args)) /\ a <> b)
  /\ (forall e project',
        add_packages (add_paths args) (add_tags args) project = (Raise e, project') ->
        run (main_dispatch args) project
        = (Exit 1,
           {| fs := project';
              out := [CallAddPackages (add_paths args) (add_tags args);
                      StopSpinner; Stdout (exn_str e)] |})).
Proof.
  intros Hadd.
  assert (main_dispatch args = tach_add (add_paths args) (add_tags args)) as Hd
    by (unfold main_dispatch; now rewrite Hadd).
  split; [exact Hd|]. split; [apply NoDup_nodup|].
  split; [intros p; apply nodup_In|]. rewrite Hd.
  unfold run, tach_add, try_except, bind, change, initial, warning_lines.
  cbn [fs out app]. split; [|split].
  - intros warnings project' ->.
    destruct warnings; destruct (1 <? length (add_paths args))%nat; reflexivity.
  - rewrite Nat.ltb_lt. apply to_set_distinct.
  - intros e project' ->. reflexivity.
Qed.

(** [InstallTarget(value)] gives back the target of a value, and it
    succeeds exactly on the values of [InstallTarget.choices()]: for a
    target the parser accepts, [main] never reports an invalid
    installation target. *)
Theorem install_target_round_trip :
  (forall target, install_target_of (install_target_value target) = Ret target)
  /\ (forall value target,
        install_target_of value = Ret target -> install_target_value target = value)
  /\ (forall value,
        In value choices <-> exists target, install_target_of value = Ret target)
  /\ (forall args,
        command_is args "install" = true ->
        In (Namespace.target args) choices ->
        main_dispatch args = tach_install (Namespace.path args) PRE_COMMIT).
Proof.
  assert (forall value target,
             install_target_of value = Ret target ->
             install_target_value target = value) as Hback.
  { intros value [] H. unfold install_target_of in H.
    destruct (String.eqb_spec value "pre-commit"); [now subst|discriminate]. }
  split; [intros []; reflexivity|]. split; [exact Hback|]. split.
  - intros value. split.
    + intros [<-|[]]. now exists PRE_COMMIT.
    + intros [target H]. apply Hback in H. subst value. destruct target. now left.
  - intros args Hc [Ht|[]]. unfold main_dispatch, command_is in *.
    destruct (Namespace.command args) as [c|]; [|discriminate].
    apply String.eqb_eq in Hc. subst c. cbn [String.eqb Ascii.eqb Bool.eqb].
    now rewrite <- Ht.
Qed.

(** [install]: exit 0 when the hook is installed, exit 1 with the warning
    when it is not, exit 1 with the message when the installer raises. *)
Theorem tach_install_outcomes (path : string) (project : FS) :
  (forall warning project',
      install_pre_commit path project = (Ret (true, warning), project') ->
      run (tach_install path PRE_COMMIT) project
      = (Exit 0,
         {| fs := project';
            out := [CallInstallPreCommit path;
                    Stdout (success
                      "Pre-commit hook installed to '.git/hooks/pre-commit'.")] |}))
  /\ (forall warning project',
      install_pre_commit path project = (Ret (false, warning), project') ->
      run (tach_install path PRE_COMMIT) project
      = (Exit 1,
         {| fs := project';
            out := [CallInstallPreCommit path;
                    Stdout (WARNING BCOLORS
                              ++ "Pre-commit hook could not be installed: "
                              ++ warning ++ " " ++ ENDC BCOLORS)] |}))
  /\ (forall e project',
      install_pre_commit path project = (Raise e, project') ->
      run (tach_install path PRE_COMMIT) project
      = (Exit 1,
         {| fs := project';
            out := [CallInstallPreCommit path; Stdout (exn_str e)] |})).
Proof.
  unfold run, tach_install, try_except, bind, change, initial. cbn [fs out app].
  repeat split; intros ? ? ->; reflexivity.
Qed.

End SetUp.

(** ** What [clean] leaves behind *)

Section CleanEndings.
Context {C : Collaborators}.

Lemma clean_root_not_empty (found : option string) : clean_root found <> "".
Proof.
  unfold clean_root. destruct found as [[|c r]|]; cbn; discriminate.
Qed.

(** A call of [clean_project] is made on the root that was found. *)
Lemma clean_call_root (force : bool) (project : FS) (root : string) :
  In (CallCleanProject root) (out (snd (run (tach_clean force) project))) ->
  exists found,
    find_project_config_root project = Ret found /\ root = clean_root found.
Proof.
  intros Hin.
  destruct (find_project_config_root project) as [found|e|c] eqn:Hf.
  2,3: destruct (tach_clean_no_root force project) as [_ Ht];
       [intros found; rewrite Hf; discriminate|];
       rewrite Ht in Hin; unfold clean_warning in Hin; in_cases Hin.
  exists found. split; [reflexivity|].
  assert (forall trace,
             In (CallCleanProject root)
                (clean_warning :: CallFindProjectConfigRoot
                   :: clean_root_notice (clean_root found) :: trace) ->
             (forall e, In e trace ->
                        e = CallInput confirm_prompt \/ e = not_deleting
                        \/ e = CallCleanProject (clean_root found)) ->
             root = clean_root found) as Hshape.
  { intros trace H Hall. unfold clean_warning, clean_root_notice in H.
    cbn [In] in H. destruct H as [H|[H|[H|H]]]; try discriminate H.
    destruct (Hall _ H) as [E|[E|E]]; try discriminate E.
    now injection E. }
  destruct force.
  - rewrite (tach_clean_forced project Hf) in Hin. cbn [snd out] in Hin.
    apply (Hshape _ Hin). intros e [<-|[]]. auto.
  - destruct (input confirm_prompt) as [response|e|c] eqn:Hi.
    2,3: destruct (tach_clean_no_answer project Hf) as [_ Ht];
         [intros response; rewrite Hi; discriminate|];
         rewrite Ht in Hin; apply (Hshape _ Hin); intros ev [<-|[]]; auto.
    destruct (str_in_list (lower response) ["y"; "yes"]) eqn:Hy.
    + rewrite (tach_clean_confirmed project Hf Hi Hy) in Hin. cbn [snd out] in Hin.
      apply (Hshape _ Hin). intros ev [<-|[<-|[]]]; auto.
    + rewrite (tach_clean_declined project Hf Hi Hy) in Hin. cbn [snd out] in Hin.
      apply (Hshape _ Hin). intros ev [<-|[<-|[]]]; auto.
Qed.

(** [clean_project] is never called on an empty root: when no root is
    found, or an empty one, the root is the current directory. *)
Theorem clean_root_is_never_empty (force : bool) (project : FS) :
  (forall root,
      In (CallCleanProject root) (out (snd (run (tach_clean force) project))) ->
      root <> "")
  /\ (find_project_config_root project = Ret None
      \/ find_project_config_root project = Ret (Some "") ->
      forall root,
        In (CallCleanProject root) (out (snd (run (tach_clean force) project))) ->
        root = ".").
Proof.
  split.
  - intros root Hin. destruct (clean_call_root _ _ _ Hin) as (found & _ & ->).
    apply clean_root_not_empty.
  - intros Hf root Hin. destruct (clean_call_root _ _ _ Hin) as (found & Hfound & ->).
    destruct Hf as [Hf|Hf]; rewrite Hf in Hfound; injection Hfound as <-;
      reflexivity.
Qed.

(** [tach_clean] has no exception handler and no [sys.exit]: declining
    returns to [main] (exit status 0), the outcome of [clean_project] is
    the outcome of the command, and an exception of the prompt (end of
    input) leaves the command with nothing deleted. *)
Theorem tach_clean_endings (project : FS) (found : option string) :
  find_project_config_root project = Ret found ->
  (forall response,
      input confirm_prompt = Ret response ->
      str_in_list (lower response) ["y"; "yes"] = false ->
      fst (run (tach_clean false) project) = Ret tt
      /\ exit_status (fst (run (tach_clean false) project)) = 0%Z)
  /\ (forall e,
      input confirm_prompt = Raise e ->
      run (tach_clean false) project
      = (Raise e,
         {| fs := project;
            out := [clean_warning; CallFindProjectConfigRoot;
                    clean_root_notice (clean_root found);
                    CallInput confirm_prompt] |}))
  /\ fst (run (tach_clean true) project)
     = fst (clean_project (clean_root found) project)
  /\ (forall e project',
      clean_project (clean_root found) project = (Raise e, project') ->
      run (tach_clean true) project
      = (Raise e,
         {| fs := project';
            out := [clean_warning; CallFindProjectConfigRoot;
                    clean_root_notice (clean_root found);
                    CallCleanProject (clean_root found)] |})
      /\ exit_status (fst (run (tach_clean true) project)) = 1%Z).
Proof.
  intros Hf. split; [|split; [|split]].
  - intros response Hi Hy. rewrite (tach_clean_declined project Hf Hi Hy).
    now split.
  - intros e Hi. run_clean. rewrite Hf. cbn [fs out fst snd app]. now rewrite Hi.
  - now rewrite (tach_clean_forced project Hf).
  - intros e project' Hc. rewrite (tach_clean_forced project Hf), Hc. now split.
Qed.

End CleanEndings.

(** ** Each command changes the project through its own collaborator *)

Section Dispatch.
Context {C : Collaborators}.

Lemma emits_ret (P : Event -> Prop) A (a : A) : emits P (ret a).
Proof. intros s e H. now left. Qed.

Lemma emits_raise (P : Event -> Prop) A (x : PyExn) : emits P (raise x : M A).
Proof. intros s e H. now left. Qed.

Lemma emits_sys_exit (P : Event -> Prop) A (c : Z) : emits P (sys_exit c : M A).
Proof. intros s e H. now left. Qed.

Lemma emits_pure (P : Event -> Prop) A (o : Outcome A) : emits P (pure o).
Proof. intros s e H. now left. Qed.

Lemma emits_returned (P : Event -> Prop) A (r : PyExn + A) : emits P (returned r).
Proof. destruct r; [apply emits_raise|apply emits_ret]. Qed.

Lemma emits_emit (P : Event -> Prop) (ev : Event) : P ev -> emits P (emit ev).
Proof.
  intros Hp s e H. cbn in H. apply in_app_or in H as [H|[<-|[]]]; auto.
Qed.

Lemma emits_inspect (P : Event -> Prop) A (ev : Event) (f : FS -> Outcome A) :
  P ev -> emits P (inspect ev f).
Proof.
  intros Hp s e H. cbn in H. apply in_app_or in H as [H|[<-|[]]]; auto.
Qed.

Lemma emits_change (P : Event -> Prop) A (ev : Event) (f : FS -> Outcome A * FS) :
  P ev -> emits P (change ev f).
Proof.
  intros Hp s e H. unfold change in H. destruct (f (fs s)). cbn in H.
  apply in_app_or in H as [H|[<-|[]]]; auto.
Qed.

Lemma emits_bind (P : Event -> Prop) A B (m : M A) (k : A -> M B) :
  emits P m -> (forall a, emits P (k a)) -> emits P (bind m k).
Proof.
  intros Hm Hk s e. unfold bind. specialize (Hm s e).
  destruct (m s) as [[a|x|c] s1]; cbn [snd] in *; try exact Hm.
  intros H. destruct (Hk a s1 e H) as [H1|H1]; auto.
Qed.

Lemma emits_try_except (P : Event -> Prop) A (m : M A) (h : PyExn -> M A) :
  emits P m -> (forall x, emits P (h x)) -> emits P (try_except m h).
Proof.
  intros Hm Hh s e. unfold try_except. specialize (Hm s e).
  destruct (m s) as [[a|x|c] s1]; cbn [snd] in *; try exact Hm.
  intros H. destruct (Hh x s1 e H) as [H1|H1]; auto.
Qed.

Lemma emits_print_each (P : Event -> Prop) (errors : list BoundaryError) :
  (forall line, P (Stderr line)) -> emits P (print_each errors).
Proof.
  intros Hp s e H. rewrite print_each_run in H. cbn in H.
  apply in_app_or in H as [H|H]; [now left|].
  apply in_map_iff in H as (line & <- & _). now right.
Qed.

Lemma emits_weaken (P Q : Event -> Prop) A (m : M A) :
  (forall e, P e -> Q e) -> emits P m -> emits Q m.
Proof. intros Hpq Hm s e H. destruct (Hm s e H); auto. Qed.

End Dispatch.

Create HintDb emits.
#[local] Hint Resolve emits_ret emits_raise emits_sys_exit emits_pure
  emits_returned emits_emit emits_inspect emits_change emits_print_each : emits.
#[local] Hint Extern 1 (emits _ (bind _ _)) =>
  apply emits_bind; [|intros ?] : emits.
#[local] Hint Extern 1 (emits _ (try_except _ _)) =>
  apply emits_try_except; [|intros ?] : emits.
#[local] Hint Extern 1 (emits _ (if ?b then _ else _)) => destruct b : emits.
#[local] Hint Extern 1 (emits _ (match ?x with _ => _ end)) => destruct x : emits.
#[local] Hint Extern 1 (only _ _) =>
  let c := fresh in
  let H := fresh in
  intros c H; cbn in H; congruence : emits.

Section Exclusive.
Context {C : Collaborators}.

Lemma tach_check_emits exact exclude_paths name :
  emits (only name) (tach_check exact exclude_paths).
Proof.
  unfold tach_check, check_body, print_errors, print_extra_constraints, print,
    stop_spinner.
  auto 30 with emits.
Qed.

Lemma tach_init_emits depth exclude_paths :
  emits (only "init") (tach_init depth exclude_paths).
Proof. unfold tach_init, print. auto 30 with emits. Qed.

Lemma tach_sync_emits prune exclude_paths :
  emits (only "sync") (tach_sync prune exclude_paths).
Proof. unfold tach_sync, print. auto 30 with emits. Qed.

Lemma tach_add_emits paths tags : emits (only "add") (tach_add paths tags).
Proof. unfold tach_add, print, stop_spinner. auto 30 with emits. Qed.

Lemma tach_clean_emits force : emits (only "clean") (tach_clean force).
Proof. unfold tach_clean, print. auto 30 with emits. Qed.

Lemma tach_install_emits path target :
  emits (only "install") (tach_install path target).
Proof. unfold tach_install, print. auto 30 with emits. Qed.

Lemma command_is_name (args : Namespace.t) (name : string) :
  command_is args name = true <-> Namespace.command args = Some name.
Proof.
  unfold command_is. destruct (Namespace.command args) as [c|].
  - rewrite String.eqb_eq. split; congruence.
  - split; discriminate.
Qed.

Lemma main_dispatch_emits (args : Namespace.t) :
  emits (fun e => forall c, changing_command e = Some c ->
                            Namespace.command args = Some c)
        (main_dispatch args).
Proof.
  unfold main_dispatch.
  destruct (command_is args "add") eqn:Hadd.
  { apply command_is_name in Hadd.
    eapply emits_weaken; [|apply tach_add_emits].
    intros e He c Hc. now rewrite (He c Hc). }
  destruct (command_is args "init") eqn:Hinit.
  { apply command_is_name in Hinit.
    eapply emits_weaken; [|apply tach_init_emits].
    intros e He c Hc. now rewrite (He c Hc). }
  destruct (command_is args "sync") eqn:Hsync.
  { apply command_is_name in Hsync.
    eapply emits_weaken; [|apply tach_sync_emits].
    intros e He c Hc. now rewrite (He c Hc). }
  destruct (command_is args "check") eqn:Hcheck.
  { apply command_is_name in Hcheck.
    apply emits_bind; [apply emits_emit; intros c H; discriminate H|intros _].
    eapply emits_weaken; [|apply (tach_check_emits _ _ "check")].
    intros e He c Hc. now rewrite (He c Hc). }
  destruct (command_is args "clean") eqn:Hclean.
  { apply command_is_name in Hclean.
    eapply emits_weaken; [|apply tach_clean_emits].
    intros e He c Hc. now rewrite (He c Hc). }
  destruct (command_is args "install") eqn:Hinstall.
  { apply command_is_name in Hinstall.
    destruct (install_target_of _).
    - eapply emits_weaken; [|apply tach_install_emits].
      intros e He c Hc. now rewrite (He c Hc).
    - unfold print. apply emits_bind; [|intros ?; apply emits_sys_exit].
      apply emits_emit. intros c H. discriminate H.
    - unfold print. apply emits_bind; [|intros ?; apply emits_sys_exit].
      apply emits_emit. intros c H. discriminate H. }
  unfold print.
  repeat (apply emits_bind; [apply emits_emit; intros c H; discriminate H|intros _]).
  apply emits_sys_exit.
Qed.

(** A collaborator that may change the project is called only by its own
    command: [clean_project] by [clean], [init_project] by [init],
    [sync_project] by [sync], [add_packages] by [add], and
    [install_pre_commit] by [install]; [check] calls none of them. *)
Theorem commands_change_only_their_own
    (argv : list string) (project : FS) (args : Namespace.t) (s' : State) :
  run (parse_arguments argv) project = (Ret args, s') ->
  (forall e c,
      In e (out (snd (run (main argv) project))) ->
      changing_command e = Some c ->
      Namespace.command args = Some c)
  /\ (command_is args "check" = true ->
      forall e,
        In e (out (snd (run (main argv) project))) -> changing_command e = None).
Proof.
  intros Hp.
  assert (forall e c,
             In e (out (snd (run (main argv) project))) ->
             changing_command e = Some c ->
             Namespace.command args = Some c) as Hown.
  { intros e c Hin Hc. unfold run, main, bind in Hin.
    unfold run in Hp. rewrite Hp in Hin.
    destruct (main_dispatch_emits args s' e Hin) as [Hold|Hnew];
      [|now apply Hnew].
    destruct (parse_arguments_returns argv project Hp) as (_ & _ & [Ho|Ho]);
      rewrite Ho in Hold.
    - contradiction.
    - destruct Hold as [<-|[]]. discriminate Hc. }
  split; [exact Hown|].
  intros Hcheck e Hin. destruct (changing_command e) as [c|] eqn:Hc; [|reflexivity].
  pose proof (Hown e c Hin Hc) as Hcmd. apply command_is_name in Hcheck.
  rewrite Hcheck in Hcmd. injection Hcmd as <-.
  destruct e; discriminate Hc.
Qed.

End Exclusive.

(** ** More runs on the project in memory *)


(** A validator that raises: the message, exit 1. *)
Lemma validator_exception_in_example :
  @run (Example.failing Example.permission_denied) unit
    (@tach_check (Example.failing Example.permission_denied) false None)
    (Some (Example.config false None))
  = (Exit 1,
     @Build_State (Example.failing Example.permission_denied)
       (Some (Example.config false None))
       [CallParseProjectConfig; CallCheck (Example.config false None) None true;
        StopSpinner; Stdout "permission denied"]).
Proof.
  destruct (@check_exceptions_are_reported
              (Example.failing Example.permission_denied) false None
              (Some (Example.config false None)) (Example.config false None)
              Example.permission_denied eq_refl) as (H & _).
  apply H. reflexivity.
Defined.

(** [add core,core] adds one package. *)
Lemma adding_a_path_twice_is_singular :
  @run Example.clean unit (@main_dispatch Example.clean Example.adding_twice)
    (Some (Example.config false None))
  = (Exit 0,
     @Build_State Example.clean (Some (Example.config false None))
       [CallAddPackages ["core"] None; StopSpinner;
        Stdout (@success Example.clean "Package added.")]).
Proof.
  destruct (@tach_add_counts_distinct_paths Example.clean Example.adding_twice
              (Some (Example.config false None)) eq_refl)
    as (_ & _ & _ & H & _).
  apply (H [] (Some (Example.config false None))). reflexivity.
Defined.

(** [check] calls no collaborator that changes the project. *)
Lemma check_changes_nothing_in_example :
  Forall (fun e => changing_command e = None)
    (out (snd (@run Example.clean unit (@main Example.clean ["check"])
                 (Some (Example.config false None))))).
Proof.
  apply Forall_forall.
  apply (@commands_change_only_their_own Example.clean ["check"]
           (Some (Example.config false None)) Example.checking
           (@Build_State Example.clean (Some (Example.config false None))
              [CallValidateProjectConfigPath])
           eq_refl).
  reflexivity.
Defined.

(** The answer "no" ends [clean] with status 0. *)
Lemma declining_exits_with_zero :
  exit_status
    (fst (@run (Example.answering "no") unit
            (@tach_clean (Example.answering "no") false)
            (Some (Example.config false None)))) = 0%Z.
Proof.
  destruct (@tach_clean_endings (Example.answering "no")
              (Some (Example.config false None)) (Some ".") eq_refl) as (H & _).
  apply (H "no"); reflexivity.
Defined.

(** [init] with a collaborator that raises. *)
Lemma init_exception_in_example :
  @run (Example.failing Example.permission_denied) unit
    (@tach_init (Example.failing Example.permission_denied) None None)
    (Some (Example.config false None))
  = (Exit 1,
     @Build_State (Example.failing Example.permission_denied)
       (Some (Example.config false None))
       [CallInitProject None None; Stdout "permission denied"]).
Proof.
  destruct (@init_and_sync_outcomes (Example.failing Example.permission_denied)
              None (Some (Example.config false None))) as (_ & H & _).
  apply (H None Example.permission_denied (Some (Example.config false None))).
  reflexivity.
Defined.

(** [TERM_PROGRAM=VSCode] is a VS Code terminal. *)
Lemma mixed_case_terminal_in_example :
  @detect_environment (Example.project (Some "VSCode") [] [] "") = VSCODE.
Proof.
  destruct (@terminal_is_detected_by_word (Example.project (Some "VSCode") [] [] ""))
    as (_ & H & _).
  apply (H "" "VSCode" ""); reflexivity.
Defined.

(** An error at line 0 in a VS Code terminal. *)
Lemma line_zero_in_example :
  @create_clickable_link Example.in_vscode "a.py" (Some 0%Z)
  = hyperlink "vscode://file//project/a.py:0" "a.py".
Proof.
  destruct (@clickable_link_shape Example.in_vscode "a.py") as (_ & _ & H).
  destruct H as (H0 & _); [discriminate|]. exact H0.
Defined.

(** ** The parser and the dispatcher *)

#[local] Hint Extern 1 (_ <> PrintHelp) => discriminate : emits.

Section ParserAndDispatch.
Context {C : Collaborators}.

Lemma known_command_cases (args : Namespace.t) :
  known_command args = true
  <-> exists c,
        Namespace.command args = Some c
        /\ In c ["init"; "check"; "add"; "install"; "sync"; "clean"].
Proof.
  unfold known_command, Argparse.is_command.
  destruct (Namespace.command args) as [c|].
  - split.
    + rewrite existsb_exists.
      intros (sub & Hin & He). apply String.eqb_eq in He. exists c.
      split; [reflexivity|]. subst c. cbn in Hin.
      repeat (destruct Hin as [<-|Hin]; [cbn; tauto|]). contradiction.
    + intros (c' & Hc & Hin). injection Hc as <-. cbn in Hin.
      repeat (destruct Hin as [<-|Hin]; [reflexivity|]).
      contradiction.
  - split; [discriminate|]. intros (c & Hc & _). discriminate.
Qed.

Lemma main_dispatch_without_help (args : Namespace.t) :
  known_command args = true -> emits (fun e => e <> PrintHelp) (main_dispatch args).
Proof.
  intros Hk. apply known_command_cases in Hk as (c & Hc & Hin).
  unfold main_dispatch, command_is. rewrite Hc. cbn in Hin.
  unfold tach_add, tach_init, tach_sync, tach_check, check_body, tach_clean,
    tach_install, print_errors, print_extra_constraints, print, stop_spinner,
    start_spinner.
  repeat (destruct Hin as [<-|Hin];
          [cbn [String.eqb Ascii.eqb Bool.eqb]; auto 40 with emits|]).
  contradiction.
Qed.

(** The dispatcher has a branch for every sub-command the parser
    declares: the help is printed (after "Unrecognized command", with
    exit 1) exactly when the command of the namespace is none of them. *)
Theorem help_only_for_unknown_commands (args : Namespace.t) (project : FS) :
  (In PrintHelp (out (snd (run (main_dispatch args) project)))
   <-> known_command args = false)
  /\ (known_command args = false ->
      run (main_dispatch args) project
      = (Exit 1,
         {| fs := project; out := [Stdout "Unrecognized command"; PrintHelp] |})).
Proof.
  assert (known_command args = false ->
          run (main_dispatch args) project
          = (Exit 1,
             {| fs := project;
                out := [Stdout "Unrecognized command"; PrintHelp] |})) as Hunknown.
  { intros Hk. unfold run, main_dispatch.
    assert (forall c, In c ["init"; "check"; "add"; "install"; "sync"; "clean"] ->
                      command_is args c = false) as Hno.
    { intros c Hin. destruct (command_is args c) eqn:E; [|reflexivity].
      apply command_is_name in E.
      assert (known_command args = true) as Ht
        by (apply known_command_cases; now exists c).
      congruence. }
    rewrite !Hno by (cbn; tauto). reflexivity. }
  split; [|exact Hunknown]. split.
  - intros Hin. destruct (known_command args) eqn:Hk; [|reflexivity].
    destruct (main_dispatch_without_help args Hk (initial project) PrintHelp Hin)
      as [[]|Hne].
    now destruct Hne.
  - intros Hk. rewrite (Hunknown Hk). cbn. tauto.
Qed.

(** The exclude option reaches a command exactly where the parser
    declares it: for a sub-command without the [exclude] destination the
    dispatcher does the same whatever the namespace holds there, and for
    [init], [sync] and [check] the split option is what the command
    function receives. *)
Theorem exclude_matters_where_declared (args : Namespace.t) (e : option string) :
  (forall c,
      Namespace.command args = Some c ->
      Argparse.is_command c = true ->
      Argparse.declares c "exclude" = false ->
      main_dispatch (with_exclude args e) = main_dispatch args)
  /\ (forall c,
      Argparse.declares c "exclude" = true <-> In c ["init"; "check"; "sync"])
  /\ (command_is args "init" = true ->
      main_dispatch args = tach_init (Namespace.depth args) (exclude_paths_of args))
  /\ (command_is args "sync" = true ->
      main_dispatch args = tach_sync (Namespace.prune args) (exclude_paths_of args)).
Proof.
  assert (forall c,
             Argparse.declares c "exclude" = true <-> In c ["init"; "check"; "sync"])
    as Hdecl.
  { intros c. unfold Argparse.declares. split.
    - rewrite existsb_exists.
      intros (sub & Hin & H). apply andb_prop in H as [Hn Hd].
      apply String.eqb_eq in Hn. subst c. cbn in Hin.
      repeat (destruct Hin as [<-|Hin];
              [first [discriminate Hd|cbn; tauto]|]).
      contradiction.
    - cbn [In]. intros [<-|[<-|[<-|[]]]]; reflexivity. }
  split; [|split; [exact Hdecl|split]].
  - intros c Hc Hk Hd.
    assert (In c ["add"; "install"; "clean"]) as Hin.
    { assert (In c ["init"; "check"; "add"; "install"; "sync"; "clean"]) as Hall.
      { unfold Argparse.is_command in Hk. apply existsb_exists in Hk
          as (sub & Hin & He). apply String.eqb_eq in He. subst c. cbn in Hin.
        repeat (destruct Hin as [<-|Hin]; [cbn; tauto|]). contradiction. }
      cbn in Hall |- *.
      destruct Hall as [<-|[<-|[<-|[<-|[<-|[<-|[]]]]]]]; auto;
        discriminate Hd. }
    unfold main_dispatch, command_is, with_exclude. cbn [Namespace.command].
    rewrite Hc. cbn in Hin.
    destruct Hin as [<-|[<-|[<-|[]]]]; reflexivity.
  - intros Hi. unfold main_dispatch.
    assert (command_is args "add" = false) as ->.
    { unfold command_is in *. destruct (Namespace.command args); [|discriminate].
      apply String.eqb_eq in Hi. now subst. }
    now rewrite Hi.
  - intros Hs. unfold main_dispatch.
    assert (command_is args "add" = false /\ command_is args "init" = false)
      as [-> ->].
    { unfold command_is in *. destruct (Namespace.command args); [|discriminate].
      apply String.eqb_eq in Hs. now subst. }
    now rewrite Hs.
Qed.

End ParserAndDispatch.
